(** * The portfolio site: configuration module, icon initialisation, Header

    A shallow embedding of the executable parts of the site:

    - [src/fontAwesomeResize.ts] (lines 1-17): the icon-subsystem adapter, a
      module whose body imports the Font Awesome stylesheet and sets
      [config.autoAddCss = false];
    - the configuration module imported as ["@consts"] (same file, lines
      17-65): [baseUrl], [SITE], [HOME] (twice), [BLOG], [PROJECTS],
      [SOCIALS];
    - [src/components/Header.astro]: the frontmatter imports and the
      template, and the [ProfilePicture] component that follows it.

    Modules are lists of statements run against a process state (the
    module-scope [const] bindings, the set of modules already evaluated,
    the icon library's [config.autoAddCss] flag and a trace of the
    icon-related events).  Values are JavaScript values: type annotations
    are erased, an object is the list of its own properties. *)

From Stdlib Require Import Ascii.
From stdpp Require Import gmap strings list.

Set Warnings "-register-all,-clear-no-such-hyp".

(** ** JavaScript values *)

(** The icon definitions imported from the Font Awesome packages. *)
Inductive IconRef : Type := faGithub | faLinkedin | faMagnifyingGlass.

Inductive Value : Type :=
| VStr (s : string)
| VNum (n : Z)
| VBool (b : bool)
| VIcon (i : IconRef)
| VObj (fields : list (string * Value))
| VArr (items : list Value).

(** [o.k]: the own property [k] of an object; [None] is [undefined]. *)
Fixpoint field (k : string) (fs : list (string * Value)) : option Value :=
  match fs with
  | [] => None
  | (k', v) :: fs' => if decide (k = k') then Some v else field k fs'
  end.

Definition get_prop (k : string) (v : Value) : option Value :=
  match v with
  | VObj fs => field k fs
  | _ => None
  end.

(** [o.k = v] on an ordinary (not frozen) object. *)
Fixpoint set_field (k : string) (v : Value) (fs : list (string * Value))
  : list (string * Value) :=
  match fs with
  | [] => [(k, v)]
  | (k', v') :: fs' =>
      if decide (k = k') then (k, v) :: fs' else (k', v') :: set_field k v fs'
  end.

(** ** Statements of a module body *)

Inductive Stmt : Type :=
| ImportSideEffect (spec : string)                   (* import 'spec'; *)
| ImportNamed (names : list string) (spec : string)  (* import { a, b } from 'spec'; *)
| ImportDefault (name : string) (spec : string)      (* import X from 'spec'; *)
| ImportType (names : list string) (spec : string)   (* import type { .. } from 'spec'; *)
| ExportConst (x : string) (init : Value)            (* export const x: T = init; *)
| AssignMember (obj prop : string) (rhs : Value).    (* obj.prop = rhs; *)

(** ** The source modules *)

(** fontAwesomeResize.ts, lines 10-17. *)
Definition fontAwesomeResize_ts : list Stmt :=
  [ ImportSideEffect "@fortawesome/fontawesome-svg-core/styles.css";
    ImportNamed ["config"] "@fortawesome/fontawesome-svg-core";
    AssignMember "config" "autoAddCss" (VBool false) ].

(** The initialisers of the configuration module, lines 21-65. *)
Definition baseUrl : Value := VStr "https://simeonat.github.io".

Definition SITE : Value :=
  VObj [ ("TITLE", VStr "Simeon Tran");
         ("DESCRIPTION", VStr "Computer Science Graduate Student");
         ("EMAIL", VStr EmptyString);
         ("NUM_POSTS_ON_HOMEPAGE", VNum 5);
         ("NUM_PROJECTS_ON_HOMEPAGE", VNum 0) ].

(** The two initialisers of [HOME], in textual order (lines 31-34 and
    36-39). *)
Definition HOME_first : Value :=
  VObj [ ("TITLE", VStr "Home");
         ("DESCRIPTION", VStr "My personal website and blog.") ].

Definition HOME_second : Value :=
  VObj [ ("TITLE", VStr "Home");
         ("DESCRIPTION", VStr "Astro Micro is an accessible theme for Astro.") ].

Definition BLOG : Value :=
  VObj [ ("TITLE", VStr "Blog");
         ("DESCRIPTION",
          VStr "Blog posts on research projects that I am currently working on.") ].

Definition PROJECTS : Value :=
  VObj [ ("TITLE", VStr "Projects");
         ("DESCRIPTION", VStr "Projects that I am proud of.") ].

Definition SOCIALS : Value :=
  VArr [ VObj [ ("NAME", VStr "GitHub");
                ("HREF", VStr "https://github.com/simeonat");
                ("icon", VIcon faGithub);
                ("end", VBool false) ];
         VObj [ ("NAME", VStr "LinkedIn");
                ("HREF", VStr "https://www.linkedin.com/in/simeon-tran/");
                ("icon", VIcon faLinkedin);
                ("end", VBool true) ] ].

(** The configuration module, parameterised by the initialiser of
    [SOCIALS] so that other social-link lists can be constructed the way
    the source constructs its own. *)
Definition consts_with (socials : Value) : list Stmt :=
  [ ImportType ["Metadata"; "Site"; "Socials"] "@types";
    ImportNamed ["faGithub"; "faLinkedin"] "@fortawesome/free-brands-svg-icons";
    ExportConst "baseUrl" baseUrl;
    ExportConst "SITE" SITE;
    ExportConst "HOME" HOME_first;
    ExportConst "HOME" HOME_second;
    ExportConst "BLOG" BLOG;
    ExportConst "PROJECTS" PROJECTS;
    ExportConst "SOCIALS" socials ].

Definition consts_ts : list Stmt := consts_with SOCIALS.

(** Header.astro, frontmatter (lines 2-8). *)
Definition Header_frontmatter : list Stmt :=
  [ ImportDefault "Container" "@components/Container.astro";
    ImportDefault "Link" "@components/Link.astro";
    ImportNamed ["SITE"] "@consts";
    ImportSideEffect "../fontAwesomeResize";
    ImportNamed ["faMagnifyingGlass"] "@fortawesome/free-solid-svg-icons";
    ImportNamed ["FontAwesomeIcon"] "@fortawesome/react-fontawesome" ].

(** The modules whose body is part of the sources; every other specifier
    names an external package or a component defined elsewhere. *)
Definition registry (spec : string) : option (list Stmt) :=
  if decide (spec = "../fontAwesomeResize") then Some fontAwesomeResize_ts
  else if decide (spec = "@consts") then Some consts_ts
  else None.

(** The names of the configuration entities. *)
Definition config_entities : list string :=
  ["SITE"; "HOME"; "BLOG"; "PROJECTS"; "SOCIALS"].

(** ** Process state *)

Inductive Event : Type :=
| EvAutoAddCss (b : bool)                    (* config.autoAddCss = b *)
| EvIconRender (i : IconRef) (flag : bool).  (* <FontAwesomeIcon icon={i}/>, with the flag it saw *)

(** [bindings] is the scope of one module: of the module whose body is
    running and, between evaluations, of the configuration module, the one
    module of the sources that declares bindings and that the Header
    imports from.  [transitions] counts the transition scopes handed out so
    far in the page being rendered. *)
Record State : Type := mkState {
  bindings : gmap string Value;  (* const bindings of a module scope *)
  loaded : gset string;          (* modules already evaluated *)
  autoAddCss : bool;             (* config.autoAddCss of the icon library *)
  trace : list Event;
  transitions : nat              (* transition scopes of the current page *)
}.

Definition set_bindings (b : gmap string Value) (st : State) : State :=
  mkState b (loaded st) (autoAddCss st) (trace st) (transitions st).

Definition mark_loaded (spec : string) (st : State) : State :=
  mkState (bindings st) ({[spec]} ∪ loaded st) (autoAddCss st) (trace st)
    (transitions st).

Definition set_autoAddCss (b : bool) (st : State) : State :=
  mkState (bindings st) (loaded st) b (trace st ++ [EvAutoAddCss b])
    (transitions st).

Definition emit (e : Event) (st : State) : State :=
  mkState (bindings st) (loaded st) (autoAddCss st) (trace st ++ [e])
    (transitions st).

(** One more transition scope in the page. *)
Definition next_scope (st : State) : State :=
  mkState (bindings st) (loaded st) (autoAddCss st) (trace st)
    (S (transitions st)).

(** ** Errors *)

Inductive Error : Type :=
| Redeclared (x : string)          (* SyntaxError: Identifier 'x' has already been declared *)
| NoSuchExport (spec x : string)   (* SyntaxError: module 'spec' provides no export named 'x' *)
| ReferenceError (x : string)      (* x is not defined *)
| TypeError (x prop : string)      (* cannot create property 'prop' on x *)
| NotAssignable (x : string).      (* type check: the initialiser of x is not assignable to its annotation *)

Inductive Result (A : Type) : Type :=
| Ok (a : A)
| Err (e : Error).
Arguments Ok {A} a.
Arguments Err {A} e.

Definition bind {A B} (r : Result A) (k : A -> Result B) : Result B :=
  match r with
  | Ok a => k a
  | Err e => Err e
  end.

Notation "'let*' x ':=' r 'in' k" := (bind r (fun x => k))
  (at level 10, x name, r at level 100, k at level 200).

Definition is_ok {A} (r : Result A) : bool :=
  match r with Ok _ => true | Err _ => false end.

(** ** Semantics of statements *)

(** [const x = v]: a [const] name can be declared once; a second
    declaration of the same name in the same scope is rejected
    (JavaScript: SyntaxError, Identifier 'x' has already been declared;
    TypeScript: cannot redeclare block-scoped variable 'x').  The
    language reports it before the body runs; here the error discards
    whatever state came before it, which amounts to the same. *)
Definition declare (x : string) (v : Value) (st : State) : Result State :=
  match bindings st !! x with
  | Some _ => Err (Redeclared x)
  | None => Ok (set_bindings (<[x := v]> (bindings st)) st)
  end.

(** [obj.prop = rhs].  [config] is the icon library's configuration
    object, of which only [autoAddCss] is tracked.  A binding that holds an
    object is an ordinary mutable object: nothing in the sources freezes
    one. *)
Definition assign_member (obj prop : string) (rhs : Value) (st : State)
  : Result State :=
  if decide (obj = "config") then
    match rhs with
    | VBool b => if decide (prop = "autoAddCss") then Ok (set_autoAddCss b st)
                 else Ok st
    | _ => Ok st
    end
  else
    match bindings st !! obj with
    | Some (VObj fs) =>
        Ok (set_bindings (<[obj := VObj (set_field prop rhs fs)]> (bindings st)) st)
    | Some _ => Err (TypeError obj prop)
    | None => Err (ReferenceError obj)
    end.

(** The names imported from a source module must be bound by it. *)
Definition check_exports (spec : string) (names : list string) (st : State)
  : Result State :=
  match registry spec with
  | None => Ok st
  | Some _ =>
      match filter (fun x => bindings st !! x = None) names with
      | [] => Ok st
      | x :: _ => Err (NoSuchExport spec x)
      end
  end.

Section Exec.
(** How an imported module gets evaluated. *)
Variable load : string -> State -> Result State.

Definition exec_stmt (s : Stmt) (st : State) : Result State :=
  match s with
  | ImportSideEffect spec => load spec st
  | ImportNamed names spec => let* st' := load spec st in check_exports spec names st'
  | ImportDefault _ spec => load spec st
  | ImportType _ _ => Ok st
  | ExportConst x init => declare x init st
  | AssignMember obj prop rhs => assign_member obj prop rhs st
  end.

Fixpoint exec_stmts (body : list Stmt) (st : State) : Result State :=
  match body with
  | [] => Ok st
  | s :: body' => let* st' := exec_stmt s st in exec_stmts body' st'
  end.
End Exec.

(** An external package: evaluated once, no effect on the tracked state. *)
Definition load_external (spec : string) (st : State) : Result State :=
  Ok (mark_loaded spec st).

(** Evaluation of a module body: every module has a scope of its own,
    empty when its body starts; what is bound in another module does not
    matter to it.  The state that comes out holds the scope of the module.
    The source modules import external packages only. *)
Definition eval_module (body : list Stmt) (st : State) : Result State :=
  exec_stmts load_external body (set_bindings ∅ st).

(** A module is evaluated the first time it is imported.  The scope of
    the configuration module is kept in the state; the scope of any other
    module is dropped when its body is done. *)
Definition load_module (spec : string) (st : State) : Result State :=
  if decide (spec ∈ loaded st) then Ok st
  else match registry spec with
       | Some body =>
           let* st' := eval_module body (mark_loaded spec st) in
           Ok (if decide (spec = "@consts") then st'
               else set_bindings (bindings st) st')
       | None => Ok (mark_loaded spec st)
       end.

(** A fresh process: nothing bound, nothing loaded, the icon library's
    flag at its default, no page under way. *)
Definition fresh : State := mkState ∅ ∅ true [] 0.

(** The initialisers of the declarations of [x] in a module body, in
    textual order. *)
Definition inits_of (x : string) (body : list Stmt) : list Value :=
  omap (fun s => match s with
                 | ExportConst y v => if decide (x = y) then Some v else None
                 | _ => None
                 end) body.

(** A module body made of [const] declarations only. *)
Definition decls (ds : list (string * Value)) : list Stmt :=
  map (fun d => ExportConst d.1 d.2) ds.

(** A social-link list like the configured one, whose first entry has no
    [HREF]. *)
Definition socials_missing_href : Value :=
  VArr [ VObj [ ("NAME", VStr "GitHub");
                ("icon", VIcon faGithub);
                ("end", VBool false) ];
         VObj [ ("NAME", VStr "LinkedIn");
                ("HREF", VStr "https://www.linkedin.com/in/simeon-tran/");
                ("icon", VIcon faLinkedin);
                ("end", VBool true) ] ].

(** ** Markup *)

Inductive Attr : Type :=
| AStr (name value : string)           (* name="value" *)
| AFlag (name : string)                (* a bare attribute *)
| ABool (name : string) (b : bool)     (* name={true} / name={false} *)
| AIcon (name : string) (i : IconRef)  (* name={faXxx} *)
| AScope (name : string) (n : nat).    (* name="astro-<hash>-<n>": a transition scope *)

(** What a template produces.  [Container], [Link] and [Avatar] are
    components defined outside these sources: an invocation is kept as a
    node with its props and slot content.  [FontAwesomeIcon] is a React
    component of the icon library, rendered to static HTML when the page is
    built; the node carries that HTML. *)
Inductive Node : Type :=
| Text (s : string)
| Expr (v : option Value)      (* {e}: the value interpolated; None is undefined *)
| Comment (s : string)
| Elem (tag : string) (attrs : list Attr) (children : list Node)
| Comp (name : string) (props : list Attr) (slot : list Node)
| Island (name : string) (props : list Attr) (html : string).

Fixpoint attr (k : string) (attrs : list Attr) : option string :=
  match attrs with
  | [] => None
  | AStr k' v :: rest => if decide (k = k') then Some v else attr k rest
  | _ :: rest => attr k rest
  end.

(** All the nodes of a tree, in document order. *)
Fixpoint subnodes (n : Node) : list Node :=
  n :: match n with
       | Elem _ _ ch => flat_map subnodes ch
       | Comp _ _ ch => flat_map subnodes ch
       | _ => []
       end.

(** The text a node puts on the page: literal text, or a string value
    interpolated by an expression. *)
Definition node_text (n : Node) : option string :=
  match n with
  | Text s => Some s
  | Expr (Some (VStr s)) => Some s
  | _ => None
  end.

Definition texts (out : Node) : list string := omap node_text (subnodes out).

(** The target of a link: a [Link] component or an [a] element. *)
Definition link_target (n : Node) : option string :=
  match n with
  | Comp name props _ => if decide (name = "Link") then attr "href" props else None
  | Elem tag attrs _ => if decide (tag = "a") then attr "href" attrs else None
  | _ => None
  end.

Definition links (out : Node) : list string := omap link_target (subnodes out).

(** A button that carries the given [aria-label]. *)
Definition button_labelled (label : string) (n : Node) : bool :=
  match n with
  | Elem tag attrs _ =>
      bool_decide (tag = "button") && bool_decide (attr "aria-label" attrs = Some label)
  | _ => false
  end.

(** ** Social links *)

Definition items (v : Value) : list Value :=
  match v with
  | VArr l => l
  | _ => []
  end.

Definition str_prop (k : string) (e : Value) : option string :=
  match get_prop k e with
  | Some (VStr s) => Some s
  | _ => None
  end.

Definition bool_prop (k : string) (e : Value) : option bool :=
  match get_prop k e with
  | Some (VBool b) => Some b
  | _ => None
  end.

Definition icon_prop (k : string) (e : Value) : option IconRef :=
  match get_prop k e with
  | Some (VIcon i) => Some i
  | _ => None
  end.

(** The social links a piece of markup shows, in document order: for each
    link of the markup, the configured entries it points to. *)
Definition rendered_socials (socials : Value) (out : Node) : list Value :=
  flat_map
    (fun h => filter (fun e => str_prop "HREF" e = Some h) (items socials))
    (links out).

(** ** The Header component *)

Definition dquote : string := String "034"%char EmptyString.

Definition newline : string := String "010"%char EmptyString.

(** The comment of lines 21-24. *)
Definition pdf_comment : string :=
  newline +:+
  "          All you need to display of PDF is to put the PDF in the "
    +:+ dquote +:+ "/public" +:+ dquote +:+ " directory:" +:+ newline +:+
  "          https://answers.netlify.com/t/cant-load-pdf-on-static-astro-site/111152/2   "
    +:+ newline +:+ "        ".

Definition button_class : string :=
  "flex items-center rounded border border-black/15 bg-neutral-100 px-2 py-1 text-lg transition-colors duration-300 ease-in-out hover:bg-black/5 hover:text-black focus-visible:bg-black/5 focus-visible:text-black dark:border-white/20 dark:bg-neutral-900 dark:hover:bg-white/5 dark:hover:text-white dark:focus-visible:bg-white/5 dark:focus-visible:text-white mr-3 ml-3".

(** Header.astro, lines 12-46, given the value bound to [SITE], the HTML
    of the icon and the number of the transition scope.  White space
    between tags is left out.  The directive [transition:persist] of the
    root element is compiled to the attribute
    [data-astro-transition-persist], whose value names a transition scope
    of the page: [astro-<hash>-<n>], where <hash> is fixed for the
    component when it is compiled and <n> numbers the scopes of the page
    from 1, in the order they are created. *)
Definition Header_template (site : Value) (icon_html : string) (scope : nat)
  : Node :=
  Elem "header" [AScope "data-astro-transition-persist" scope]
    [ Comp "Container" []
        [ Elem "div" [AStr "class" "flex flex-wrap justify-between gap-y-2"]
            [ Comp "Link" [AStr "href" "/"; ABool "underline" false]
                [ Elem "div" [AStr "class" "font-semibold text-xl"]
                    [ Expr (get_prop "TITLE" site) ] ];
              Elem "nav" [AStr "class" "flex items-center gap-1 text-sm"]
                [ Comment pdf_comment;
                  Comp "Link" [AStr "href" "/files/Simeon-Tran-CV.pdf"] [Text "CV"];
                  Elem "span" [] [Expr (Some (VStr "/"))];
                  Comp "Link" [AStr "href" "/blog"] [Text "Blog"];
                  Elem "span" [] [Expr (Some (VStr "/"))];
                  Elem "button"
                    [ AStr "id" "magnifying-glass";
                      AStr "aria-label" "Search";
                      AStr "class" button_class ]
                    [ Elem "div" [AStr "class" "mr-2"]
                        [ Island "FontAwesomeIcon"
                            [AIcon "icon" faMagnifyingGlass] icon_html ];
                      Text "Search" ] ] ] ] ].

(** The ProfilePicture component that follows the Header in the sources. *)
Definition ProfilePicture : Node :=
  Elem "div" [AStr "className" "flex flex-wrap gap-2"]
    [ Comp "Avatar"
        [ AStr "img" "/profile-pixel-art-upscaled.png"; AFlag "rounded";
          AStr "size" "xl"; AFlag "bordered" ] [] ].

Inductive Request : Type := ReqHeader | ReqProfilePicture.

Inductive Op : Type :=
| OStmt (s : Stmt)
| ORender (r : Request).

Section Rendering.
(** The icon library's renderer: the HTML of an icon, given the value
    of [config.autoAddCss] at the time of the call. *)
Variable FontAwesomeIcon : bool -> IconRef -> string.

(** Rendering the Header: the frontmatter runs (each import evaluates
    its module unless it already was), then the template is filled in
    from the binding of [SITE]; the root element takes the next transition
    scope of the page, and the one icon of the template is rendered under
    the configuration of that moment. *)
Definition render_Header (st : State) : Result (Node * State) :=
  let* st1 := exec_stmts load_module Header_frontmatter st in
  match bindings st1 !! "SITE" with
  | None => Err (ReferenceError "SITE")
  | Some site =>
      let flag := autoAddCss st1 in
      Ok (Header_template site (FontAwesomeIcon flag faMagnifyingGlass)
            (S (transitions st1)),
          emit (EvIconRender faMagnifyingGlass flag) (next_scope st1))
  end.

Definition render (r : Request) (st : State) : Result (Node * State) :=
  match r with
  | ReqHeader => render_Header st
  | ReqProfilePicture => Ok (ProfilePicture, st)
  end.

(** The markup of a render, when there is one. *)
Definition markup (r : Result (Node * State)) : option Node :=
  match r with
  | Ok (out, _) => Some out
  | Err _ => None
  end.

(** A process serves the render requests of a page one after the other;
    a render that fails leaves the state as it was. *)
Definition serve (st : State) (r : Request) : State :=
  match render r st with
  | Ok (_, st') => st'
  | Err _ => st
  end.

Definition run (rs : list Request) (st : State) : State :=
  fold_left serve rs st.

(** Every operation of the program: a statement of one of the modules,
    or a render. *)
Definition exec_op (o : Op) (st : State) : Result State :=
  match o with
  | OStmt s => exec_stmt load_module s st
  | ORender r => let* p := render r st in Ok (snd p)
  end.
End Rendering.

(** The state the imports of the Header lead to: every imported module
    is marked as evaluated, and the adapter module has run unless it
    already had. *)
Definition after_imports (st : State) : State :=
  let st2 :=
    mark_loaded "@components/Link.astro"
      (mark_loaded "@components/Container.astro" st) in
  let st3 :=
    if decide ("../fontAwesomeResize" ∈ loaded st) then st2
    else set_autoAddCss false
           (mark_loaded "@fortawesome/fontawesome-svg-core"
              (mark_loaded "@fortawesome/fontawesome-svg-core/styles.css"
                 (mark_loaded "../fontAwesomeResize" st2))) in
  mark_loaded "@fortawesome/react-fontawesome"
    (mark_loaded "@fortawesome/free-solid-svg-icons" st3).

Definition program_ops : list Op :=
  map OStmt (fontAwesomeResize_ts ++ consts_ts ++ Header_frontmatter)
    ++ [ORender ReqHeader; ORender ReqProfilePicture].

(** Statements that write a property of a module-scope binding (anything
    but the icon library's [config]). *)
Definition writes_binding (s : Stmt) : bool :=
  match s with
  | AssignMember obj _ _ => negb (bool_decide (obj = "config"))
  | _ => false
  end.

(** The icon-related events are in order when every icon render saw the
    flag off and comes after an event that turned it off. *)
Definition icon_ordered (t : list Event) : Prop :=
  forall pre i f post,
    t = pre ++ EvIconRender i f :: post ->
    f = false /\ EvAutoAddCss false ∈ pre.

(** In every state the program reaches, the adapter module being loaded
    means the flag is off. *)
Definition icon_inv (st : State) : Prop :=
  "../fontAwesomeResize" ∈ loaded st ->
  autoAddCss st = false /\ EvAutoAddCss false ∈ trace st.

(** A state in which the configuration module has been evaluated with
    the given bindings. *)
Definition configured (cfg : gmap string Value) : State :=
  mkState cfg {["@consts"]} true [] 0.

(** A stand-in for the icon library's renderer in the examples: its
    output differs with the flag. *)
Definition sample_icon (flag : bool) (i : IconRef) : string :=
  if flag then "<style>.svg-inline--fa{}</style><svg></svg>" else "<svg></svg>".

(** Two configured processes for the examples: one with [SITE] only, one
    with [SITE] and [SOCIALS]. *)
Definition site_only : State := configured (<["SITE" := SITE]> ∅).

Definition site_and_socials : State :=
  configured (<["SOCIALS" := SOCIALS]> (<["SITE" := SITE]> ∅)).

(** ** The static check of the social links

    The declaration [export const SOCIALS: Socials = ...] (line 52) is
    checked against its annotation before the module is evaluated. *)

Inductive Ty : Type := TString | TNumber | TBoolean | TIcon.

Definition has_type (t : Ty) (v : Value) : bool :=
  match t, v with
  | TString, VStr _ => true
  | TNumber, VNum _ => true
  | TBoolean, VBool _ => true
  | TIcon, VIcon _ => true
  | _, _ => false
  end.

(** A required property: present, and of the type asked for. *)
Definition field_ok (t : Ty) (o : option Value) : bool :=
  match o with
  | Some v => has_type t v
  | None => false
  end.

Section StaticCheck.
(** The declaration of [Socials] in ["@types"] is not among the sources:
    the properties it requires of an entry, with their types, are a
    parameter. *)
Variable Socials_entry : list (string * Ty).

Definition entry_conforms (e : Value) : bool :=
  forallb (fun kt => field_ok kt.2 (get_prop kt.1 e)) Socials_entry.

(** [init] is assignable to [Socials]: an array of conforming entries. *)
Definition check_SOCIALS (init : Value) : bool :=
  match init with
  | VArr es => forallb entry_conforms es
  | _ => false
  end.

(** Construction of the configuration with a given social-link list: the
    list is checked against the annotation, then the module is
    evaluated. *)
Definition construct (socials : Value) (st : State) : Result State :=
  if check_SOCIALS socials then eval_module (consts_with socials) st
  else Err (NotAssignable "SOCIALS").
End StaticCheck.

(** Modelled from the spec: the declaration of the type [Socials], which
    is in ["@types"] and not among the sources.  The data model of the spec
    gives a social link a display name, a target URL string, a reference
    to an icon and a boolean flag; the configured entries name them
    [NAME], [HREF], [icon] and [end]. *)
Definition SocialLink_fields : list (string * Ty) :=
  [ ("NAME", TString); ("HREF", TString); ("icon", TIcon); ("end", TBoolean) ].

(** ** The rendering of the social links *)

(** Modelled from the spec: the component that renders the social links,
    which is not among the sources (nothing there reads [SOCIALS]).  The
    spec has the links shown in navigation, in the order of the list (the
    order of the sequence is the display order), each with its target, its
    icon and its display name.  How the grouping flag shows is not said and
    is left out. *)
Definition social_link (e : Value) : Node :=
  Comp "Link"
    (match str_prop "HREF" e with
     | Some href => [AStr "href" href]
     | None => []
     end)
    [ Comp "FontAwesomeIcon"
        (match icon_prop "icon" e with
         | Some i => [AIcon "icon" i]
         | None => []
         end) [];
      Expr (get_prop "NAME" e) ].

Definition social_links (socials : Value) : Node :=
  Elem "nav" [] (map social_link (items socials)).

(** ** Further notions for the site *)

(** The number of Header renders in a sequence of requests. *)
Fixpoint header_renders (rs : list Request) : nat :=
  match rs with
  | [] => 0
  | ReqHeader :: rs' => S (header_renders rs')
  | ReqProfilePicture :: rs' => header_renders rs'
  end.

(** Statements that set [config.autoAddCss] to [true]. *)
Definition turns_css_on (s : Stmt) : bool :=
  match s with
  | AssignMember obj prop (VBool true) =>
      bool_decide (obj = "config") && bool_decide (prop = "autoAddCss")
  | _ => false
  end.

(** ** The authorisation middleware shown in the Deno post

    The TypeScript listings of fontAwesomeResize.ts, lines 286-496:
    the resolver table, [authorize], [verify] and [hasScopes].  The JWT
    library ([jose.jwtVerify]), the database query behind [getScopes] and
    the fields [algorithm], [issuer] and [audience] of the JWT service are
    not part of the listings: they are parameters. *)

(** [xs.includes(x)] on an array of strings. *)
Fixpoint includes (x : string) (xs : list string) : bool :=
  match xs with
  | [] => false
  | y :: ys => if decide (x = y) then true else includes x ys
  end.

(** [hasScopes], lines 486-494. *)
Fixpoint hasScopes (userScopes requiredScopes : list string) : bool :=
  match userScopes with
  | [] => false
  | scope :: rest =>
      if includes scope requiredScopes then true else hasScopes rest requiredScopes
  end.

(** [s.split(sep)] for a one-character separator: the segments between
    the occurrences of [sep], empty ones included; never the empty list. *)
Fixpoint js_split (sep : ascii) (s : string) : list string :=
  match s with
  | EmptyString => [EmptyString]
  | String c s' =>
      if decide (c = sep) then EmptyString :: js_split sep s'
      else match js_split sep s' with
           | seg :: segs => String c seg :: segs
           | [] => [String c EmptyString]
           end
  end.

(** Whether a character occurs in a string. *)
Fixpoint occurs (c : ascii) (s : string) : bool :=
  match s with
  | EmptyString => false
  | String c' s' => if decide (c' = c) then true else occurs c s'
  end.

(** How a resolver call ends: with a value, or with an error of the given
    message. *)
Inductive Outcome (A : Type) : Type :=
| Resolved (a : A)
| Rejected (message : string).
Arguments Resolved {A} a.
Arguments Rejected {A} message.

(** The queries of the resolver table, lines 291-298, with the scopes
    [authorize] is given for each; [None] for a resolver that is not
    wrapped. *)
Inductive Query : Type := backend | login | auth | admin.

Definition required_scopes (q : Query) : option (list string) :=
  match q with
  | backend => None
  | login => None
  | auth => Some ["user"; "admin"]
  | admin => Some ["admin"]
  end.

Section Authorization.
(** Fields of the JWT service. *)
Variables algorithm issuer audience : string.
(** [jose.jwtVerify(accessToken, publicKey, {issuer, audience})]: the
    payload and the [alg] of the protected header, or [None] when it
    rejects.  The token it is handed may be [undefined]. *)
Variable jwtVerify : option string -> option (Value * string).
(** [AuthService.getScopes(id)]: the scopes stored for the user, or [None]
    when the lookup throws. *)
Variable getScopes : string -> option (list string).

(** [verify], lines 439-462: [true] when the promise resolves, [false]
    when it rejects. *)
Definition verify (accessToken : option string) (scopes : list string) : bool :=
  match jwtVerify accessToken with
  | None => false
  | Some (payload, alg) =>
      if decide (alg = algorithm) then
        match str_prop "id" payload with
        | None => false
        | Some id =>
            if decide (str_prop "iss" payload = Some issuer) then
              if decide (str_prop "aud" payload = Some audience) then
                match getScopes id with
                | None => false
                | Some userScopes => hasScopes userScopes scopes
                end
              else false
            else false
        end
      else false
  end.

(** [authorize(next, scopes)], lines 412-431, applied to a request whose
    [authorization] header is [bearerAuth] ([None] when the header is
    absent); [next] is what the wrapped resolver yields for the request,
    [None] when it throws.  Whatever is thrown inside the [try] ends as
    the one error [Unauthorized]. *)
Definition authorize {A} (next : option A) (scopes : list string)
    (bearerAuth : option string) : Outcome A :=
  let segments := js_split " "%char <$> bearerAuth in
  let accessToken := segments ≫= (fun l => l !! 1) in
  if decide (segments ≫= (fun l => l !! 0) = Some "Bearer") then
    if verify accessToken scopes then
      match next with
      | Some result => Resolved result
      | None => Rejected "Unauthorized"
      end
    else Rejected "Unauthorized"
  else Rejected "Unauthorized".

End Authorization.

(** Stand-ins for the examples: a verification that knows the tokens of
    two users, and the scopes the database holds for them. *)
Definition sample_jwtVerify (accessToken : option string) : option (Value * string) :=
  match accessToken with
  | Some t =>
      if decide (t = "user.token") then
        Some (VObj [ ("id", VStr "6e007ce8-7a29-470a-9d87-c2dae1d9728e");
                     ("iss", VStr "issuer"); ("aud", VStr "audience") ],
              "RS256")
      else if decide (t = "admin.token") then
        Some (VObj [ ("id", VStr "an-administrator");
                     ("iss", VStr "issuer"); ("aud", VStr "audience") ],
              "RS256")
      else None
  | None => None
  end.

Definition sample_getScopes (id : string) : option (list string) :=
  if decide (id = "6e007ce8-7a29-470a-9d87-c2dae1d9728e") then Some ["user"]
  else if decide (id = "an-administrator") then Some ["admin"]
  else None.

(** * Properties *)

(** ** Evaluation of the modules *)

Lemma load_module_external spec st :
  registry spec = None -> load_module spec st = Ok (mark_loaded spec st).
Proof.
  intros Hr. unfold load_module. rewrite Hr.
  destruct (decide (spec ∈ loaded st)) as [Hin|]; [|done].
  f_equal. destruct st as [b L f t n]; unfold mark_loaded; cbn in *.
  f_equal. set_solver.
Qed.

(** Whatever the state and the social-link list, the configuration module
    is rejected: at the latest, the second declaration of [HOME] finds the
    name taken. *)
Lemma consts_with_fails socials st :
  exists e, eval_module (consts_with socials) st = Err e.
Proof.
  unfold eval_module, consts_with.
  cbn [exec_stmts exec_stmt bind load_external].
  unfold check_exports.
  change (registry "@fortawesome/free-brands-svg-icons") with (@None (list Stmt)).
  cbn [bind].
  unfold declare at 1.
  destruct (bindings _ !! "baseUrl"); [eauto|]. cbn [bind].
  unfold declare at 1.
  destruct (bindings _ !! "SITE"); [eauto|]. cbn [bind].
  unfold declare at 1.
  destruct (bindings _ !! "HOME"); [eauto|]. cbn [bind].
  unfold declare at 1. cbn [bindings set_bindings].
  rewrite lookup_insert_eq. cbn [bind]. eauto.
Qed.

Lemma declare_fresh x v st :
  bindings st !! x = None ->
  declare x v st = Ok (set_bindings (<[x := v]> (bindings st)) st).
Proof. intros H. unfold declare. by rewrite H. Qed.

(** A list of declarations of distinct, unused names is always accepted,
    and binds every name to its initialiser as written. *)
Lemma exec_decls ds : forall st,
  NoDup ds.*1 ->
  (forall x, x ∈ ds.*1 -> bindings st !! x = None) ->
  exists st',
    exec_stmts load_external (decls ds) st = Ok st'
    /\ (forall x v, (x, v) ∈ ds -> bindings st' !! x = Some v)
    /\ (forall y, y ∉ ds.*1 -> bindings st' !! y = bindings st !! y).
Proof.
  induction ds as [|[x v] ds IH]; intros st Hnd Hfree.
  - exists st. split; [done|]. split; [|done].
    intros x v Hin. by apply elem_of_nil in Hin.
  - rewrite fmap_cons in Hnd, Hfree. cbn [fst] in Hnd, Hfree.
    apply NoDup_cons in Hnd as [Hx Hnd].
    unfold decls. cbn [map exec_stmts exec_stmt fst snd].
    rewrite declare_fresh by (apply Hfree; left). cbn [bind].
    destruct (IH (set_bindings (<[x := v]> (bindings st)) st) Hnd) as (st' & Hev & Hin & Hout).
    { intros y Hy. cbn [bindings set_bindings].
      rewrite lookup_insert_ne by (intros ->; done).
      apply Hfree. by right. }
    exists st'. split; [exact Hev|]. split.
    + intros y w Hyw. apply elem_of_cons in Hyw as [Heq | Hyw].
      * injection Heq as -> ->. rewrite (Hout x Hx).
        cbn [bindings set_bindings]. apply lookup_insert_eq.
      * by apply Hin.
    + intros y Hy. rewrite fmap_cons in Hy. cbn [fst] in Hy.
      apply not_elem_of_cons in Hy as [Hne Hy].
      rewrite (Hout y Hy). cbn [bindings set_bindings].
      by rewrite lookup_insert_ne.
Qed.

(** In a module of its own, the names only have to be distinct. *)
Lemma eval_decls ds st :
  NoDup ds.*1 ->
  exists st',
    eval_module (decls ds) st = Ok st'
    /\ forall x v, (x, v) ∈ ds -> bindings st' !! x = Some v.
Proof.
  intros Hnd. unfold eval_module.
  destruct (exec_decls ds (set_bindings ∅ st) Hnd) as (st' & Hev & Hin & _).
  { intros x _. apply lookup_empty. }
  eauto.
Qed.

(** ** C1 *)

(** C1, as stated: after evaluation of the configuration module, [HOME]
    holds the value of its second declaration.  It does not: evaluation is
    rejected, no state comes out of it. *)
Lemma C1_second_HOME_does_not_overwrite :
  ~ (exists st', eval_module consts_ts fresh = Ok st'
                 /\ bindings st' !! "HOME" = Some HOME_second).
Proof.
  intros (st' & Hev & _).
  destruct (consts_with_fails SOCIALS fresh) as [e He].
  unfold consts_ts in Hev. congruence.
Qed.

(** C1, amended: [HOME] is declared twice, with the initialisers of lines
    31-34 and 36-39 in that order; the second declaration does not
    overwrite the first: it is rejected as a redeclaration, from the fresh
    process and from every other state the module is rejected, so [HOME]
    never comes to hold the second value. *)
Theorem C1_HOME_declared_twice_rejected :
  inits_of "HOME" consts_ts = [HOME_first; HOME_second]
  /\ eval_module consts_ts fresh = Err (Redeclared "HOME")
  /\ forall st, is_ok (eval_module consts_ts st) = false.
Proof.
  split; [reflexivity|]. split; [by vm_compute|].
  intros st. destruct (consts_with_fails SOCIALS st) as [e He].
  unfold consts_ts. by rewrite He.
Qed.

(** ** C2 *)





(** The check tells the lists apart: the configured list passes it, and
    what then stops the construction is the second declaration of
    [HOME]. *)
Example configured_SOCIALS_conform :
  check_SOCIALS SocialLink_fields SOCIALS = true
  /\ construct SocialLink_fields SOCIALS fresh = Err (Redeclared "HOME").
Proof. split; by vm_compute. Qed.

(** The check is static: evaluation itself looks at no initialiser, a
    module of declarations of distinct names is evaluated whatever they
    hold. *)
Example evaluation_checks_nothing :
  is_ok (eval_module (decls [("SOCIALS", socials_missing_href)]) fresh) = true.
Proof. by vm_compute. Qed.

(** ** C8 *)

(** C8: the configured list has two entries, GitHub with the
    group-terminator flag off and LinkedIn with the flag on, so exactly one
    entry carries the flag. *)
Theorem C8_one_group_terminator :
  map (fun e => (str_prop "NAME" e, bool_prop "end" e)) (items SOCIALS)
    = [(Some "GitHub", Some false); (Some "LinkedIn", Some true)]
  /\ length (filter (fun e => bool_prop "end" e = Some true) (items SOCIALS)) = 1.
Proof. split; reflexivity. Qed.

(** ** C5 *)

Lemma links_social_link e :
  omap link_target (subnodes (social_link e))
  = match str_prop "HREF" e with Some href => [href] | None => [] end.
Proof.
  unfold social_link.
  destruct (str_prop "HREF" e), (icon_prop "icon" e); reflexivity.
Qed.

Lemma texts_social_link e :
  omap node_text (subnodes (social_link e))
  = match str_prop "NAME" e with Some name => [name] | None => [] end.
Proof.
  unfold social_link, str_prop. cbn.
  destruct (get_prop "NAME" e) as [[]|]; reflexivity.
Qed.

(** C5: the rendering of the social links keeps the authored order.  For
    every list, the targets of the rendered links and the names shown are
    those of the entries, in the order of the list; for the configured
    list the links shown are GitHub, then LinkedIn. *)
Theorem C5_social_links_in_authored_order (socials : Value) :
  links (social_links socials) = omap (str_prop "HREF") (items socials)
  /\ texts (social_links socials) = omap (str_prop "NAME") (items socials)
  /\ rendered_socials SOCIALS (social_links SOCIALS) = items SOCIALS
  /\ texts (social_links SOCIALS) = ["GitHub"; "LinkedIn"].
Proof.
  split; [|split; [|split; reflexivity]].
  - unfold links, social_links. cbn [subnodes].
    change (omap link_target (Elem "nav" [] (map social_link (items socials))
                              :: flat_map subnodes (map social_link (items socials))))
      with (omap link_target (flat_map subnodes (map social_link (items socials)))).
    induction (items socials) as [|e es IH]; [done|].
    cbn [map flat_map]. rewrite omap_app, links_social_link, IH.
    cbn [omap list_omap]. by destruct (str_prop "HREF" e).
  - unfold texts, social_links. cbn [subnodes].
    change (omap node_text (Elem "nav" [] (map social_link (items socials))
                            :: flat_map subnodes (map social_link (items socials))))
      with (omap node_text (flat_map subnodes (map social_link (items socials)))).
    induction (items socials) as [|e es IH]; [done|].
    cbn [map flat_map]. rewrite omap_app, texts_social_link, IH.
    cbn [omap list_omap]. by destruct (str_prop "NAME" e).
Qed.

(** ** Bindings are only ever added *)

Lemma declare_keeps x v st st' y w :
  declare x v st = Ok st' ->
  bindings st !! y = Some w -> bindings st' !! y = Some w.
Proof.
  unfold declare. destruct (bindings st !! x) eqn:Hx; [done|].
  intros [= <-] Hy. cbn [bindings set_bindings].
  rewrite lookup_insert_ne; [done|]. intros ->. congruence.
Qed.

Lemma assign_config_bindings prop rhs st st' :
  assign_member "config" prop rhs st = Ok st' -> bindings st' = bindings st.
Proof.
  unfold assign_member. cbn [decide].
  destruct (decide ("config" = "config")) as [_|]; [|done].
  destruct rhs; try (by intros [= <-]).
  destruct (decide (prop = "autoAddCss")); by intros [= <-].
Qed.

Lemma check_exports_id spec names st st' :
  check_exports spec names st = Ok st' -> st' = st.
Proof.
  unfold check_exports. destruct (registry spec); [|by intros [= <-]].
  destruct (filter _ names); [by intros [= <-]|done].
Qed.

Lemma bind_Ok {A B} (r : Result A) (k : A -> Result B) b :
  bind r k = Ok b -> exists a, r = Ok a /\ k a = Ok b.
Proof. destruct r; [eauto|done]. Qed.

Section Keeps.
Variable load : string -> State -> Result State.
Hypothesis load_keeps : forall spec st st' y w,
  load spec st = Ok st' ->
  bindings st !! y = Some w -> bindings st' !! y = Some w.

Lemma exec_stmt_keeps s st st' y w :
  writes_binding s = false ->
  exec_stmt load s st = Ok st' ->
  bindings st !! y = Some w -> bindings st' !! y = Some w.
Proof.
  destruct s as [spec|names spec|name spec|names spec|x init|obj prop rhs];
    cbn [exec_stmt writes_binding]; intros Hw Hex Hy.
  - eauto.
  - apply bind_Ok in Hex as (st1 & Hl & Hc).
    apply check_exports_id in Hc as ->. eauto.
  - eauto.
  - by injection Hex as <-.
  - eauto using declare_keeps.
  - apply negb_false_iff, bool_decide_eq_true in Hw as ->.
    apply assign_config_bindings in Hex. by rewrite Hex.
Qed.

Lemma exec_stmts_keeps body : forall st st' y w,
  forallb (fun s => negb (writes_binding s)) body = true ->
  exec_stmts load body st = Ok st' ->
  bindings st !! y = Some w -> bindings st' !! y = Some w.
Proof.
  induction body as [|s body IH]; cbn [exec_stmts forallb]; intros st st' y w Hw Hex Hy.
  - by injection Hex as <-.
  - apply andb_true_iff in Hw as [Hs Hw]. apply negb_true_iff in Hs.
    apply bind_Ok in Hex as (st1 & H1 & H2).
    eapply IH; [done|exact H2|]. eapply exec_stmt_keeps; eauto.
Qed.
End Keeps.

Lemma load_external_keeps spec st st' y w :
  load_external spec st = Ok st' ->
  bindings st !! y = Some w -> bindings st' !! y = Some w.
Proof. by intros [= <-]. Qed.

Lemma load_module_keeps spec st st' y w :
  load_module spec st = Ok st' ->
  bindings st !! y = Some w -> bindings st' !! y = Some w.
Proof.
  unfold load_module. case_decide; [by intros [= <-]|].
  destruct (registry spec) as [body|] eqn:Hr; [|by intros [= <-]].
  intros Hex Hy. apply bind_Ok in Hex as (st1 & Hev & Hret).
  destruct (decide (spec = "@consts")) as [->|Hne].
  - change (registry "@consts") with (Some (consts_with SOCIALS)) in Hr.
    injection Hr as <-.
    destruct (consts_with_fails SOCIALS (mark_loaded "@consts" st)) as [e He].
    congruence.
  - by injection Hret as <-.
Qed.

Lemma render_keeps FAI r st p y w :
  render FAI r st = Ok p ->
  bindings st !! y = Some w -> bindings (snd p) !! y = Some w.
Proof.
  destruct r; cbn [render].
  - unfold render_Header. intros Hex Hy.
    apply bind_Ok in Hex as (st1 & H1 & H2).
    destruct (bindings st1 !! "SITE"); [|done]. injection H2 as <-.
    cbn [snd emit next_scope bindings].
    eapply (exec_stmts_keeps load_module load_module_keeps Header_frontmatter); eauto.
  - by intros [= <-].
Qed.

Lemma program_stmts_no_write s :
  OStmt s ∈ program_ops -> writes_binding s = false.
Proof.
  intros Hin. unfold program_ops in Hin. cbn in Hin.
  repeat (apply elem_of_cons in Hin as [Heq | Hin];
          [first [by injection Heq as -> | discriminate Heq]|]).
  by apply elem_of_nil in Hin.
Qed.

(** C3, amended: the configuration entities are plain objects, not
    frozen ones; what keeps them unchanged is that no operation of the
    program (a statement of the adapter module, of the configuration
    module or of the Header's frontmatter, a render of the Header or of the
    profile picture) writes to them: whatever state the operation runs
    from, an entity that is bound holds the same value afterwards. *)
Theorem C3_configuration_never_mutated FAI o st st' x v :
  o ∈ program_ops -> x ∈ config_entities ->
  exec_op FAI o st = Ok st' ->
  bindings st !! x = Some v -> bindings st' !! x = Some v.
Proof.
  intros Ho _ Hex Hx. destruct o as [s|r]; cbn [exec_op] in Hex.
  - eapply (exec_stmt_keeps load_module load_module_keeps); eauto using program_stmts_no_write.
  - apply bind_Ok in Hex as (p & Hr & [= <-]). eauto using render_keeps.
Qed.

Lemma C3_configuration_never_mutated_witness :
  bindings (set_autoAddCss false site_and_socials) !! "SOCIALS" = Some SOCIALS.
Proof.
  apply (C3_configuration_never_mutated sample_icon
           (OStmt (AssignMember "config" "autoAddCss" (VBool false)))
           site_and_socials _ "SOCIALS" SOCIALS).
  - unfold program_ops. cbn. do 2 right. left.
  - unfold config_entities. do 4 right. left.
  - reflexivity.
  - reflexivity.
Defined.

(** C3, as stated: every configuration entity is a frozen, read-only
    structure once it is constructed, so that whatever is assigned to one
    of its fields, it holds the value it was constructed with.  It is not:
    right after the declaration of [SITE] (lines 23-29) has run in a fresh
    process, an assignment to [SITE.TITLE] goes through and [SITE] holds
    another value. *)
Lemma C3_entities_are_not_frozen :
  ~ (forall x init prop rhs st1 st2,
       x ∈ config_entities ->
       exec_stmt load_module (ExportConst x init) fresh = Ok st1 ->
       exec_stmt load_module (AssignMember x prop rhs) st1 = Ok st2 ->
       bindings st2 !! x = Some init).
Proof.
  intros H.
  specialize (H "SITE" SITE "TITLE" (VStr "x") _ _ ltac:(left) eq_refl eq_refl).
  vm_compute in H. discriminate H.
Qed.

(** ** The imports of the Header *)

Lemma load_module_loaded spec st :
  spec ∈ loaded st -> load_module spec st = Ok st.
Proof. intros H. unfold load_module. by rewrite decide_True. Qed.

Lemma load_adapter st :
  load_module "../fontAwesomeResize" st
  = Ok (if decide ("../fontAwesomeResize" ∈ loaded st) then st
        else set_autoAddCss false
               (mark_loaded "@fortawesome/fontawesome-svg-core"
                  (mark_loaded "@fortawesome/fontawesome-svg-core/styles.css"
                     (mark_loaded "../fontAwesomeResize" st)))).
Proof. unfold load_module. by destruct (decide _). Qed.

Lemma check_exports_bound spec x st :
  is_Some (bindings st !! x) -> check_exports spec [x] st = Ok st.
Proof.
  intros [v Hv]. unfold check_exports. destruct (registry spec); [|done].
  rewrite filter_cons_False; [done|]. by rewrite Hv.
Qed.

Lemma check_exports_unbound x st :
  bindings st !! x = None ->
  check_exports "@consts" [x] st = Err (NoSuchExport "@consts" x).
Proof.
  intros Hx. unfold check_exports. cbn [registry].
  change (registry "@consts") with (Some consts_ts).
  by rewrite filter_cons_True.
Qed.

Lemma check_exports_external spec names st :
  registry spec = None -> check_exports spec names st = Ok st.
Proof. intros Hr. unfold check_exports. by rewrite Hr. Qed.

Lemma import_named_external names spec st :
  registry spec = None ->
  exec_stmt load_module (ImportNamed names spec) st = Ok (mark_loaded spec st).
Proof.
  intros Hr. cbn [exec_stmt]. rewrite load_module_external by done.
  cbn [bind]. by apply check_exports_external.
Qed.

Lemma imports_ok st :
  "@consts" ∈ loaded st -> is_Some (bindings st !! "SITE") ->
  exec_stmts load_module Header_frontmatter st = Ok (after_imports st).
Proof.
  intros Hc Hs. unfold Header_frontmatter, after_imports.
  cbn [exec_stmts exec_stmt].
  rewrite (load_module_external "@components/Container.astro") by reflexivity.
  cbn [bind].
  rewrite (load_module_external "@components/Link.astro") by reflexivity.
  cbn [bind].
  rewrite load_module_loaded by (cbn; set_solver).
  cbn [bind]. rewrite check_exports_bound by done. cbn [bind].
  rewrite load_adapter. cbn [bind].
  rewrite (load_module_external "@fortawesome/free-solid-svg-icons") by reflexivity.
  cbn [bind].
  rewrite check_exports_external by reflexivity. cbn [bind].
  rewrite (load_module_external "@fortawesome/react-fontawesome") by reflexivity.
  cbn [bind].
  rewrite check_exports_external by reflexivity. cbn [bind].
  do 3 f_equal. apply decide_ext. cbn. set_solver.
Qed.

Lemma imports_consts_not_loaded st :
  "@consts" ∉ loaded st ->
  exists e, exec_stmts load_module Header_frontmatter st = Err e.
Proof.
  intros Hc. unfold Header_frontmatter.
  cbn [exec_stmts exec_stmt].
  rewrite (load_module_external "@components/Container.astro") by reflexivity.
  cbn [bind].
  rewrite (load_module_external "@components/Link.astro") by reflexivity.
  cbn [bind].
  unfold load_module at 1. rewrite decide_False by (cbn; set_solver).
  change (registry "@consts") with (Some (consts_with SOCIALS)).
  cbn match.
  destruct (consts_with_fails SOCIALS
              (mark_loaded "@consts"
                 (mark_loaded "@components/Link.astro"
                    (mark_loaded "@components/Container.astro" st)))) as [e He].
  rewrite He. cbn [bind]. eauto.
Qed.

Lemma imports_SITE_unbound st :
  "@consts" ∈ loaded st -> bindings st !! "SITE" = None ->
  exec_stmts load_module Header_frontmatter st = Err (NoSuchExport "@consts" "SITE").
Proof.
  intros Hc Hs. unfold Header_frontmatter.
  cbn [exec_stmts exec_stmt].
  rewrite (load_module_external "@components/Container.astro") by reflexivity.
  cbn [bind].
  rewrite (load_module_external "@components/Link.astro") by reflexivity.
  cbn [bind].
  rewrite load_module_loaded by (cbn; set_solver).
  cbn [bind]. by rewrite check_exports_unbound.
Qed.

Lemma after_imports_bindings st : bindings (after_imports st) = bindings st.
Proof. unfold after_imports. by destruct (decide _). Qed.

Lemma after_imports_flag st :
  autoAddCss (after_imports st)
  = if decide ("../fontAwesomeResize" ∈ loaded st) then autoAddCss st else false.
Proof. unfold after_imports. by destruct (decide _). Qed.

Lemma after_imports_trace st :
  trace (after_imports st)
  = if decide ("../fontAwesomeResize" ∈ loaded st) then trace st
    else trace st ++ [EvAutoAddCss false].
Proof. unfold after_imports. by destruct (decide _). Qed.

Lemma after_imports_loaded st spec :
  spec ∈ loaded st -> spec ∈ loaded (after_imports st).
Proof. unfold after_imports. destruct (decide _); cbn; set_solver. Qed.

Lemma after_imports_adapter st :
  "../fontAwesomeResize" ∈ loaded (after_imports st).
Proof. unfold after_imports. destruct (decide _); cbn; set_solver. Qed.

Lemma after_imports_transitions st :
  transitions (after_imports st) = transitions st.
Proof. unfold after_imports. by destruct (decide _). Qed.

Section HeaderLemmas.
Variable FAI : bool -> IconRef -> string.

Lemma render_Header_configured st site :
  "@consts" ∈ loaded st -> bindings st !! "SITE" = Some site ->
  render_Header FAI st
  = Ok (Header_template site
          (FAI (autoAddCss (after_imports st)) faMagnifyingGlass)
          (S (transitions st)),
        emit (EvIconRender faMagnifyingGlass (autoAddCss (after_imports st)))
          (next_scope (after_imports st))).
Proof.
  intros Hc Hs. unfold render_Header.
  rewrite imports_ok by (done || by eexists). cbn [bind].
  by rewrite after_imports_bindings, Hs, after_imports_transitions.
Qed.

Lemma render_Header_Ok_inv st out st' :
  render_Header FAI st = Ok (out, st') ->
  "@consts" ∈ loaded st
  /\ exists site,
       bindings st !! "SITE" = Some site
       /\ out = Header_template site
                  (FAI (autoAddCss (after_imports st)) faMagnifyingGlass)
                  (S (transitions st))
       /\ st' = emit (EvIconRender faMagnifyingGlass (autoAddCss (after_imports st)))
                  (next_scope (after_imports st)).
Proof.
  intros Hr.
  destruct (decide ("@consts" ∈ loaded st)) as [Hc|Hc].
  - split; [done|].
    destruct (bindings st !! "SITE") as [site|] eqn:Hs.
    + rewrite (render_Header_configured st site) in Hr by done.
      injection Hr as <- <-. eauto.
    + unfold render_Header in Hr. by rewrite imports_SITE_unbound in Hr.
  - destruct (imports_consts_not_loaded st Hc) as [e He].
    unfold render_Header in Hr. by rewrite He in Hr.
Qed.
End HeaderLemmas.

(** ** Order of the icon events *)

Lemma split_snoc {A} (pre post l : list A) x y :
  pre ++ x :: post = l ++ [y] ->
  (pre = l /\ x = y /\ post = [])
  \/ exists post', post = post' ++ [y] /\ l = pre ++ x :: post'.
Proof.
  destruct post as [|z post _] using rev_ind; intros Heq.
  - apply app_inj_tail in Heq as [-> ->]. by left.
  - right. exists post.
    change (pre ++ x :: post ++ [z]) with (pre ++ (x :: post) ++ [z]) in Heq.
    rewrite app_assoc in Heq. apply app_inj_tail in Heq as [<- ->]. done.
Qed.

Lemma icon_ordered_nil : icon_ordered [].
Proof. intros pre i f post Heq. by destruct pre. Qed.

Lemma icon_ordered_snoc_flag t b :
  icon_ordered t -> icon_ordered (t ++ [EvAutoAddCss b]).
Proof.
  intros Ht pre i f post Heq. symmetry in Heq.
  apply split_snoc in Heq as [(_ & [=] & _) | (post' & -> & ->)].
  eapply Ht; eauto.
Qed.

Lemma icon_ordered_snoc_render t i :
  icon_ordered t -> EvAutoAddCss false ∈ t ->
  icon_ordered (t ++ [EvIconRender i false]).
Proof.
  intros Ht Hin pre j f post Heq. symmetry in Heq.
  apply split_snoc in Heq as [(-> & [= -> ->] & _) | (post' & -> & ->)].
  - done.
  - eapply Ht; eauto.
Qed.

Section Executions.
Variable FAI : bool -> IconRef -> string.

Lemma serve_ordered st r :
  icon_ordered (trace st) -> icon_inv st ->
  icon_ordered (trace (serve FAI st r)) /\ icon_inv (serve FAI st r).
Proof.
  intros Hord Hinv. unfold serve.
  destruct r; cbn [render]; [|done].
  destruct (render_Header FAI st) as [[out st']|e] eqn:Hr; [|done].
  apply render_Header_Ok_inv in Hr as (_ & site & _ & _ & ->).
  rewrite after_imports_flag. unfold icon_inv.
  cbn [emit next_scope trace loaded autoAddCss].
  rewrite after_imports_flag, after_imports_trace.
  destruct (decide ("../fontAwesomeResize" ∈ loaded st)) as [Hl|Hl].
  - destruct (Hinv Hl) as [-> Hin]. split.
    + by apply icon_ordered_snoc_render.
    + intros _. split; [done|]. apply elem_of_app. by left.
  - split.
    + apply icon_ordered_snoc_render.
      * by apply icon_ordered_snoc_flag.
      * apply elem_of_app. right. by left.
    + intros _. split; [done|]. rewrite !elem_of_app. left. right. by left.
Qed.

Lemma run_ordered rs : forall st,
  icon_ordered (trace st) -> icon_inv st ->
  icon_ordered (trace (run FAI rs st)) /\ icon_inv (run FAI rs st).
Proof.
  induction rs as [|r rs IH]; intros st Hord Hinv; [done|].
  cbn [run fold_left].
  destruct (serve_ordered st r Hord Hinv) as [Hord' Hinv'].
  by apply IH.
Qed.

(** C4: the adapter module always evaluates and leaves
    [config.autoAddCss] off; and in every execution (a process in which
    nothing has happened yet serves any sequence of render requests) every
    icon render saw the flag off and comes after the assignment that turned
    it off. *)
Theorem C4_icon_init_before_render (rs : list Request) (st : State) :
  trace st = [] -> "../fontAwesomeResize" ∉ loaded st ->
  (exists st', eval_module fontAwesomeResize_ts st = Ok st' /\ autoAddCss st' = false)
  /\ icon_ordered (trace (run FAI rs st)).
Proof.
  intros Ht Hl. split.
  - eexists. split; reflexivity.
  - apply run_ordered.
    + rewrite Ht. apply icon_ordered_nil.
    + intros Hin. done.
Qed.
End Executions.

Lemma C4_icon_init_before_render_witness :
  (exists st', eval_module fontAwesomeResize_ts site_only = Ok st'
               /\ autoAddCss st' = false)
  /\ icon_ordered
       (trace (run sample_icon [ReqHeader; ReqProfilePicture; ReqHeader] site_only)).
Proof.
  apply (C4_icon_init_before_render sample_icon
           [ReqHeader; ReqProfilePicture; ReqHeader] site_only).
  - reflexivity.
  - cbn. set_solver.
Defined.

(** The trace of that execution: the first render of the Header runs the
    adapter, then renders the icon; the second finds the adapter loaded. *)
Example two_Header_renders_trace :
  trace (run sample_icon [ReqHeader; ReqProfilePicture; ReqHeader] site_only)
  = [ EvAutoAddCss false;
      EvIconRender faMagnifyingGlass false;
      EvIconRender faMagnifyingGlass false ].
Proof. by vm_compute. Qed.

(** A process that has not evaluated the configuration module cannot
    render the Header: its import of ["@consts"] evaluates the module,
    which is rejected. *)
Example fresh_process_cannot_render :
  render_Header sample_icon fresh = Err (Redeclared "HOME").
Proof. by vm_compute. Qed.

Section HeaderProperties.
Variable FAI : bool -> IconRef -> string.

Lemma str_prop_get k e s : str_prop k e = Some s -> get_prop k e = Some (VStr s).
Proof.
  unfold str_prop. destruct (get_prop k e) as [[]|]; congruence.
Qed.

(** Under the invariant, the icon of the Header is always rendered with
    the flag off. *)
Lemma after_imports_flag_off st :
  icon_inv st -> autoAddCss (after_imports st) = false.
Proof.
  intros Hinv. rewrite after_imports_flag.
  destruct (decide _) as [Hl|]; [|done]. by destruct (Hinv Hl).
Qed.

Lemma render_Header_inv st out st' :
  icon_inv st ->
  render_Header FAI st = Ok (out, st') ->
  icon_inv st' /\ bindings st' = bindings st /\ "@consts" ∈ loaded st'.
Proof.
  intros Hinv Hr.
  apply render_Header_Ok_inv in Hr as (Hc & site & _ & _ & ->).
  split; [|split].
  - intros _. cbn [emit next_scope trace autoAddCss].
    rewrite after_imports_flag, after_imports_trace.
    destruct (decide ("../fontAwesomeResize" ∈ loaded st)) as [Hl|Hl].
    + destruct (Hinv Hl) as [-> Hin]. split; [done|].
      apply elem_of_app. by left.
    + split; [done|]. rewrite !elem_of_app. left. right. by left.
  - cbn [emit next_scope bindings]. apply after_imports_bindings.
  - cbn [emit next_scope loaded]. by apply after_imports_loaded.
Qed.

(** The links of the Header are, in order, the site root, the CV file
    and the blog index, whatever the configuration: the Header shows no
    social link. *)
Lemma Header_links st out st' :
  render_Header FAI st = Ok (out, st') ->
  links out = ["/"; "/files/Simeon-Tran-CV.pdf"; "/blog"]
  /\ rendered_socials SOCIALS out = [].
Proof.
  intros Hr. apply render_Header_Ok_inv in Hr as (_ & site & _ & -> & _).
  split; reflexivity.
Qed.

(** C6: whenever the Header renders, its markup contains a button whose
    [aria-label] is "Search": the search trigger, of id
    [magnifying-glass]. *)
Theorem C6_search_control_labelled st out st' :
  render_Header FAI st = Ok (out, st') ->
  exists attrs children,
    Elem "button" attrs children ∈ subnodes out
    /\ attr "aria-label" attrs = Some "Search"
    /\ attr "id" attrs = Some "magnifying-glass"
    /\ button_labelled "Search" (Elem "button" attrs children) = true.
Proof.
  intros Hr. apply render_Header_Ok_inv in Hr as (_ & site & _ & -> & _).
  do 2 eexists. split; [|split; [|split]].
  - cbn [Header_template subnodes flat_map app].
    repeat first [left | right].
  - reflexivity.
  - reflexivity.
  - reflexivity.
Qed.

(** C7: once the configuration is in place with a [SITE] whose [TITLE]
    is "Simeon Tran", the Header renders, its markup contains the text
    "Simeon Tran", and that text sits inside a link to the site root. *)
Theorem C7_title_links_home st site :
  "@consts" ∈ loaded st ->
  bindings st !! "SITE" = Some site ->
  str_prop "TITLE" site = Some "Simeon Tran" ->
  exists out st',
    render_Header FAI st = Ok (out, st')
    /\ "Simeon Tran" ∈ texts out
    /\ exists n, n ∈ subnodes out
                 /\ link_target n = Some "/"
                 /\ "Simeon Tran" ∈ texts n.
Proof.
  intros Hc Hs Ht. apply str_prop_get in Ht.
  do 2 eexists. split; [by apply render_Header_configured|].
  unfold Header_template. rewrite Ht. split.
  - by left.
  - eexists. split; [do 3 right; left|]. split; [reflexivity|]. by left.
Qed.

(** C9, amended: the markup of the Header is a function of the value
    bound to [SITE] and of the number of the transition scope its root
    takes in the page.  From a render that succeeded, any process that has
    the configuration in place with the same [SITE] renders too, and the
    two markups are the same template with the same [SITE] and the same
    icon, each with the scope number of its own page position: they are
    identical when the two renders are at the same count of transition
    scopes, and differ in nothing but the scope of the root otherwise. *)
Theorem C9_Header_function_of_SITE_and_scope st1 st2 out1 st1' :
  icon_inv st1 -> icon_inv st2 ->
  "@consts" ∈ loaded st2 ->
  bindings st2 !! "SITE" = bindings st1 !! "SITE" ->
  render_Header FAI st1 = Ok (out1, st1') ->
  exists site html,
    out1 = Header_template site html (S (transitions st1))
    /\ (exists st2',
          render_Header FAI st2
          = Ok (Header_template site html (S (transitions st2)), st2'))
    /\ (transitions st2 = transitions st1 ->
        exists st2', render_Header FAI st2 = Ok (out1, st2')).
Proof.
  intros Hi1 Hi2 Hc2 Hb Hr.
  apply render_Header_Ok_inv in Hr as (Hc1 & site & Hs & -> & _).
  rewrite (after_imports_flag_off st1 Hi1).
  exists site, (FAI false faMagnifyingGlass). split; [done|].
  assert (exists st2',
            render_Header FAI st2
            = Ok (Header_template site (FAI false faMagnifyingGlass)
                    (S (transitions st2)), st2')) as [st2' H2].
  { eexists. rewrite (render_Header_configured FAI st2 site) by congruence.
    by rewrite (after_imports_flag_off st2 Hi2). }
  split; [by exists st2'|]. intros <-. by exists st2'.
Qed.

(** C10: the markup of the Header does not depend on the social-link
    list: whatever two values [SOCIALS] is bound to, the render has the
    same outcome, the same markup when it succeeds. *)
Theorem C10_Header_ignores_SOCIALS st s1 s2 :
  markup (render_Header FAI (set_bindings (<["SOCIALS" := s1]> (bindings st)) st))
  = markup (render_Header FAI (set_bindings (<["SOCIALS" := s2]> (bindings st)) st)).
Proof.
  set (st1 := set_bindings (<["SOCIALS" := s1]> (bindings st)) st).
  set (st2 := set_bindings (<["SOCIALS" := s2]> (bindings st)) st).
  assert (bindings st1 !! "SITE" = bindings st !! "SITE") as Hb1
    by (by apply lookup_insert_ne).
  assert (bindings st2 !! "SITE" = bindings st !! "SITE") as Hb2
    by (by apply lookup_insert_ne).
  destruct (decide ("@consts" ∈ loaded st)) as [Hc|Hc].
  - destruct (bindings st !! "SITE") as [site|] eqn:Hs.
    + rewrite (render_Header_configured FAI st1 site), (render_Header_configured FAI st2 site) by done.
      cbn [markup]. rewrite !after_imports_flag. reflexivity.
    + unfold render_Header. by rewrite !imports_SITE_unbound.
  - unfold render_Header.
    destruct (imports_consts_not_loaded st1 Hc) as [e1 ->].
    destruct (imports_consts_not_loaded st2 Hc) as [e2 ->]. done.
Qed.

(** Along an execution: in a configured process the markup of the Header
    is a function of the value bound to [SITE] and of the count of
    transition scopes, however many renders came before. *)
Lemma run_keeps_configuration rs : forall st,
  icon_inv st -> "@consts" ∈ loaded st ->
  icon_inv (run FAI rs st)
  /\ bindings (run FAI rs st) = bindings st
  /\ "@consts" ∈ loaded (run FAI rs st).
Proof.
  induction rs as [|r rs IH]; intros st Hinv Hc; [done|].
  cbn [run fold_left]. fold (run FAI rs (serve FAI st r)).
  assert (icon_inv (serve FAI st r)
          /\ bindings (serve FAI st r) = bindings st
          /\ "@consts" ∈ loaded (serve FAI st r)) as (Hinv' & Hb' & Hc').
  { unfold serve. destruct r; cbn [render]; [|done].
    destruct (render_Header FAI st) as [[out st']|e] eqn:Hr; [|done].
    by apply (render_Header_inv st out st'). }
  destruct (IH _ Hinv' Hc') as (? & Hb & ?).
  split; [done|]. split; [congruence|done].
Qed.

Lemma Header_markup_in_any_run cfg rs :
  markup (render_Header FAI (run FAI rs (configured cfg)))
  = (fun site =>
       Header_template site (FAI false faMagnifyingGlass)
         (S (transitions (run FAI rs (configured cfg))))) <$> cfg !! "SITE".
Proof.
  destruct (run_keeps_configuration rs (configured cfg)) as (Hinv & Hb & Hc).
  { intros H. cbn in H. set_solver. }
  { cbn. set_solver. }
  cbn [configured bindings] in Hb.
  destruct (cfg !! "SITE") as [site|] eqn:Hs.
  - rewrite (render_Header_configured FAI _ site) by congruence.
    cbn [markup fmap option_fmap option_map].
    by rewrite (after_imports_flag_off _ Hinv).
  - unfold render_Header. rewrite imports_SITE_unbound by congruence. done.
Qed.
End HeaderProperties.

Lemma C6_search_control_labelled_witness :
  exists attrs children,
    Elem "button" attrs children
      ∈ subnodes (Header_template SITE (sample_icon false faMagnifyingGlass) 1)
    /\ attr "aria-label" attrs = Some "Search"
    /\ attr "id" attrs = Some "magnifying-glass"
    /\ button_labelled "Search" (Elem "button" attrs children) = true.
Proof.
  apply (C6_search_control_labelled sample_icon site_only _
           (emit (EvIconRender faMagnifyingGlass false)
              (next_scope (after_imports site_only)))).
  reflexivity.
Defined.

Lemma C7_title_links_home_witness :
  exists out st',
    render_Header sample_icon site_only = Ok (out, st')
    /\ "Simeon Tran" ∈ texts out
    /\ exists n, n ∈ subnodes out
                 /\ link_target n = Some "/"
                 /\ "Simeon Tran" ∈ texts n.
Proof.
  apply (C7_title_links_home sample_icon site_only SITE).
  - cbn. set_solver.
  - reflexivity.
  - reflexivity.
Defined.

Lemma C9_Header_function_of_SITE_and_scope_witness :
  exists site html,
    Header_template SITE (sample_icon false faMagnifyingGlass) 1
    = Header_template site html (S (transitions site_only))
    /\ (exists st2',
          render_Header sample_icon site_and_socials
          = Ok (Header_template site html (S (transitions site_and_socials)), st2'))
    /\ (transitions site_and_socials = transitions site_only ->
        exists st2',
          render_Header sample_icon site_and_socials
          = Ok (Header_template SITE (sample_icon false faMagnifyingGlass) 1, st2')).
Proof.
  apply (C9_Header_function_of_SITE_and_scope sample_icon
           site_only site_and_socials _
           (emit (EvIconRender faMagnifyingGlass false)
              (next_scope (after_imports site_only)))).
  - intros H. cbn in H. set_solver.
  - intros H. cbn in H. set_solver.
  - cbn. set_solver.
  - reflexivity.
  - reflexivity.
Defined.

(** C9, as stated: two renders of the Header with the same configuration
    have the same markup.  They have not when they are two Headers of one
    page: the root of the first carries the transition scope 1, the root
    of the second the scope 2. *)
Lemma C9_two_Headers_of_a_page_differ :
  ~ (forall st1 st2 out1 out2 st1' st2',
       bindings st1 = bindings st2 ->
       render_Header sample_icon st1 = Ok (out1, st1') ->
       render_Header sample_icon st2 = Ok (out2, st2') ->
       out1 = out2).
Proof.
  intros H.
  specialize (H site_only
                (emit (EvIconRender faMagnifyingGlass false)
                   (next_scope (after_imports site_only)))
                (Header_template SITE (sample_icon false faMagnifyingGlass) 1)
                (Header_template SITE (sample_icon false faMagnifyingGlass) 2)
                (emit (EvIconRender faMagnifyingGlass false)
                   (next_scope (after_imports site_only)))
                (emit (EvIconRender faMagnifyingGlass false)
                   (next_scope
                      (after_imports
                         (emit (EvIconRender faMagnifyingGlass false)
                            (next_scope (after_imports site_only))))))
                eq_refl eq_refl eq_refl).
  unfold Header_template in H. discriminate H.
Qed.

(** * Further properties of the site *)

(** ** Which configuration modules are accepted *)

Lemma exec_decls_ok ds : forall st,
  is_ok (exec_stmts load_external (decls ds) st) = true ->
  NoDup ds.*1 /\ forall x, x ∈ ds.*1 -> bindings st !! x = None.
Proof.
  induction ds as [|[x v] ds IH]; intros st Hok.
  - split; [constructor|]. intros x Hx. by apply elem_of_nil in Hx.
  - unfold decls in Hok. cbn [map exec_stmts exec_stmt fst snd] in Hok.
    unfold declare in Hok.
    destruct (bindings st !! x) eqn:Hx; [discriminate Hok|]. cbn [bind] in Hok.
    destruct (IH _ Hok) as [Hnd Hfree]. cbn [bindings set_bindings] in Hfree.
    assert (x ∉ ds.*1) as Hnin.
    { intros Hin. specialize (Hfree x Hin). by rewrite lookup_insert_eq in Hfree. }
    rewrite fmap_cons. cbn [fst]. split; [by constructor|].
    intros y Hy. apply elem_of_cons in Hy as [-> | Hy]; [done|].
    specialize (Hfree y Hy). rewrite lookup_insert_ne in Hfree; [done|].
    by intros ->.
Qed.

(** X6: A module of [const] declarations is accepted exactly when it
    declares no name twice, whatever other modules have bound: its scope
    is its own. *)
Theorem decls_accepted_iff (ds : list (string * Value)) (st : State) :
  is_ok (eval_module (decls ds) st) = true <-> NoDup ds.*1.
Proof.
  split.
  - intros Hok. by apply (exec_decls_ok ds (set_bindings ∅ st)).
  - intros Hnd. destruct (eval_decls ds st Hnd) as (st' & -> & _). done.
Qed.

(** Another module may declare [SITE] while the configuration is in
    place. *)
Example another_module_declares_SITE :
  is_ok (eval_module (decls [("SITE", VStr "another")]) site_only) = true.
Proof. by vm_compute. Qed.

(** ** The flag is never turned on *)

Lemma declare_flag x v st st' :
  declare x v st = Ok st' -> autoAddCss st' = autoAddCss st.
Proof.
  unfold declare. destruct (bindings st !! x); [done|]. by intros [= <-].
Qed.

Lemma assign_member_flag obj prop rhs st st' :
  turns_css_on (AssignMember obj prop rhs) = false ->
  assign_member obj prop rhs st = Ok st' ->
  autoAddCss st = false -> autoAddCss st' = false.
Proof.
  unfold assign_member, turns_css_on. intros Hs Hex Hf.
  destruct (decide (obj = "config")) as [->|].
  - destruct rhs as [| |b| | |]; try (by injection Hex as <-).
    destruct (decide (prop = "autoAddCss")) as [->|]; [|by injection Hex as <-].
    injection Hex as <-. cbn [set_autoAddCss autoAddCss].
    by destruct b.
  - destruct (bindings st !! obj) as [[]|]; try done. by injection Hex as <-.
Qed.

Section FlagStaysOff.
Variable load : string -> State -> Result State.
Hypothesis load_flag : forall spec st st',
  load spec st = Ok st' -> autoAddCss st = false -> autoAddCss st' = false.

Lemma exec_stmt_flag s st st' :
  turns_css_on s = false ->
  exec_stmt load s st = Ok st' ->
  autoAddCss st = false -> autoAddCss st' = false.
Proof.
  destruct s as [spec|names spec|name spec|names spec|x init|obj prop rhs];
    cbn [exec_stmt]; intros Hs Hex Hf.
  - eauto.
  - apply bind_Ok in Hex as (st1 & Hl & Hc).
    apply check_exports_id in Hc as ->. eauto.
  - eauto.
  - by injection Hex as <-.
  - apply declare_flag in Hex. congruence.
  - eauto using assign_member_flag.
Qed.

Lemma exec_stmts_flag body : forall st st',
  forallb (fun s => negb (turns_css_on s)) body = true ->
  exec_stmts load body st = Ok st' ->
  autoAddCss st = false -> autoAddCss st' = false.
Proof.
  induction body as [|s body IH]; cbn [exec_stmts forallb]; intros st st' Hs Hex Hf.
  - by injection Hex as <-.
  - apply andb_true_iff in Hs as [Hs Hb]. apply negb_true_iff in Hs.
    apply bind_Ok in Hex as (st1 & H1 & H2).
    eapply IH; [done|exact H2|]. eapply exec_stmt_flag; eauto.
Qed.
End FlagStaysOff.

Lemma load_module_flag spec st st' :
  load_module spec st = Ok st' -> autoAddCss st = false -> autoAddCss st' = false.
Proof.
  unfold load_module. case_decide; [by intros [= <-]|].
  destruct (registry spec) as [body|] eqn:Hr; [|by intros [= <-]].
  intros Hex Hf. apply bind_Ok in Hex as (st1 & Hev & Hret).
  assert (autoAddCss st1 = false) as Hf1.
  { unfold eval_module in Hev.
    eapply (exec_stmts_flag load_external) in Hev; [done| |..|done].
    - by intros ??? [= <-].
    - unfold registry in Hr.
      repeat case_decide; first [discriminate Hr | injection Hr as <-; reflexivity]. }
  injection Hret as <-. by destruct (decide _).
Qed.

Lemma program_stmts_css_off s :
  OStmt s ∈ program_ops -> turns_css_on s = false.
Proof.
  intros Hin. unfold program_ops in Hin. cbn in Hin.
  repeat (apply elem_of_cons in Hin as [Heq | Hin];
          [first [by injection Heq as -> | discriminate Heq]|]).
  by apply elem_of_nil in Hin.
Qed.

(** X2: No operation of the program turns [config.autoAddCss] back on: once
    the flag is off, it is off after every statement of the modules and
    after every render. *)
Theorem css_injection_stays_off FAI o st st' :
  o ∈ program_ops ->
  exec_op FAI o st = Ok st' ->
  autoAddCss st = false -> autoAddCss st' = false.
Proof.
  intros Ho Hex Hf. destruct o as [s|r]; cbn [exec_op] in Hex.
  - eapply (exec_stmt_flag load_module load_module_flag); eauto using program_stmts_css_off.
  - apply bind_Ok in Hex as ([out st1] & Hr & [= <-]).
    destruct r; cbn [render] in Hr; [|by injection Hr as _ <-].
    apply render_Header_Ok_inv in Hr as (_ & site & _ & _ & ->).
    cbn [emit next_scope autoAddCss]. rewrite after_imports_flag. by destruct (decide _).
Qed.

Lemma css_injection_stays_off_witness :
  autoAddCss (set_autoAddCss false (set_autoAddCss false site_only)) = false.
Proof.
  apply (css_injection_stays_off sample_icon
           (OStmt (AssignMember "config" "autoAddCss" (VBool false)))
           (set_autoAddCss false site_only)).
  - unfold program_ops. cbn. do 2 right. left.
  - reflexivity.
  - reflexivity.
Defined.

(** ** Renders of the Header along an execution *)

Lemma mark_loaded_id spec st : spec ∈ loaded st -> mark_loaded spec st = st.
Proof.
  intros Hin. destruct st as [b L f t n]. unfold mark_loaded. cbn in *.
  f_equal. set_solver.
Qed.

(** Once the Header has rendered, its imports have nothing left to do. *)
Lemma after_imports_again st :
  after_imports (after_imports st) = after_imports st.
Proof.
  assert (forall spec st', spec ∈ loaded st' ->
            mark_loaded spec st' = st') as Hid by (intros; by apply mark_loaded_id).
  unfold after_imports at 1.
  rewrite decide_True by apply after_imports_adapter.
  rewrite !Hid; [done|..].
  - unfold after_imports. destruct (decide _); cbn; set_solver.
  - rewrite Hid; unfold after_imports; destruct (decide _); cbn; set_solver.
  - unfold after_imports. destruct (decide _); cbn; set_solver.
  - rewrite Hid; unfold after_imports; destruct (decide _); cbn; set_solver.
Qed.

Lemma after_imports_emit e st :
  "../fontAwesomeResize" ∈ loaded st ->
  after_imports (emit e st) = emit e (after_imports st).
Proof.
  intros Hl. unfold after_imports. cbn [emit next_scope loaded].
  by rewrite !decide_True.
Qed.

Lemma after_imports_next_scope st :
  after_imports (next_scope st) = next_scope (after_imports st).
Proof. unfold after_imports. cbn [next_scope loaded]. by destruct (decide _). Qed.

Section Renders.
Variable FAI : bool -> IconRef -> string.

(** X3: The Header renders exactly in the processes that have the
    configuration in place with [SITE] bound. *)
Theorem Header_renders_iff st :
  is_ok (render_Header FAI st) = true
  <-> "@consts" ∈ loaded st /\ is_Some (bindings st !! "SITE").
Proof.
  split.
  - destruct (render_Header FAI st) as [[out st']|e] eqn:Hr; [|done].
    intros _. apply render_Header_Ok_inv in Hr as (Hc & site & Hs & _).
    split; [done|]. by eexists.
  - intros [Hc [site Hs]]. by rewrite (render_Header_configured FAI st site).
Qed.

(** X4: A second render of the Header evaluates no module: it adds one
    icon-render event and one transition scope to the state the first
    left, nothing else, and its markup is that of the first with the next
    scope number at the root. *)
Theorem second_render_only_renders st out st' :
  render_Header FAI st = Ok (out, st') ->
  exists site html,
    out = Header_template site html (transitions st')
    /\ render_Header FAI st'
       = Ok (Header_template site html (S (transitions st')),
             emit (EvIconRender faMagnifyingGlass (autoAddCss st')) (next_scope st')).
Proof.
  intros Hr. apply render_Header_Ok_inv in Hr as (Hc & site & Hs & -> & ->).
  exists site, (FAI (autoAddCss (after_imports st)) faMagnifyingGlass).
  assert (after_imports
            (emit (EvIconRender faMagnifyingGlass (autoAddCss (after_imports st)))
               (next_scope (after_imports st)))
          = emit (EvIconRender faMagnifyingGlass (autoAddCss (after_imports st)))
              (next_scope (after_imports st))) as Hfix.
  { rewrite after_imports_emit
      by (cbn [next_scope loaded]; apply after_imports_adapter).
    by rewrite after_imports_next_scope, after_imports_again. }
  split.
  - cbn [emit next_scope transitions]. by rewrite after_imports_transitions.
  - rewrite (render_Header_configured FAI _ site).
    + by rewrite Hfix.
    + cbn [emit next_scope loaded]. by apply after_imports_loaded.
    + cbn [emit next_scope bindings]. by rewrite after_imports_bindings.
Qed.

(** X5: With a [SITE] that has no [TITLE], the Header still renders: the
    title link is empty, the rest of the markup is there. *)
Theorem Header_without_TITLE st site :
  "@consts" ∈ loaded st ->
  bindings st !! "SITE" = Some site ->
  get_prop "TITLE" site = None ->
  exists out st',
    render_Header FAI st = Ok (out, st')
    /\ texts out = ["CV"; "/"; "Blog"; "/"; "Search"]
    /\ links out = ["/"; "/files/Simeon-Tran-CV.pdf"; "/blog"]
    /\ existsb (button_labelled "Search") (subnodes out) = true.
Proof.
  intros Hc Hs Ht. do 2 eexists.
  split; [by apply render_Header_configured|].
  unfold Header_template. rewrite Ht. done.
Qed.

Lemma serve_Header_configured st site :
  "@consts" ∈ loaded st -> bindings st !! "SITE" = Some site ->
  serve FAI st ReqHeader
  = emit (EvIconRender faMagnifyingGlass (autoAddCss (after_imports st)))
      (next_scope (after_imports st)).
Proof.
  intros Hc Hs. unfold serve. cbn [render].
  by rewrite (render_Header_configured FAI st site).
Qed.

(** With the adapter loaded and the flag off, each render of the Header
    adds one icon-render event. *)
Lemma trace_of_run_loaded rs : forall st,
  "@consts" ∈ loaded st -> is_Some (bindings st !! "SITE") ->
  "../fontAwesomeResize" ∈ loaded st -> autoAddCss st = false ->
  trace (run FAI rs st)
  = trace st ++ replicate (header_renders rs) (EvIconRender faMagnifyingGlass false).
Proof.
  induction rs as [|[|] rs IH]; intros st Hc [site Hs] Hl Hf.
  - cbn. by rewrite app_nil_r.
  - cbn [run fold_left header_renders]. fold (run FAI rs (serve FAI st ReqHeader)).
    rewrite (serve_Header_configured st site) by done.
    rewrite IH.
    + cbn [emit next_scope trace]. rewrite after_imports_trace, after_imports_flag.
      rewrite !decide_True by done. rewrite Hf.
      by rewrite <- app_assoc.
    + cbn [emit next_scope loaded]. by apply after_imports_loaded.
    + cbn [emit next_scope bindings]. rewrite after_imports_bindings. by eexists.
    + cbn [emit next_scope loaded]. apply after_imports_adapter.
    + cbn [emit next_scope autoAddCss]. rewrite after_imports_flag.
      by rewrite decide_True.
  - cbn [run fold_left header_renders]. apply IH; by try eexists.
Qed.

(** X1: The trace of an execution of a configured process in which nothing
    has happened yet: nothing as long as no Header is rendered; otherwise
    the assignment of the adapter, once, followed by one icon render per
    render of the Header. *)
Theorem trace_of_run (rs : list Request) (st : State) :
  "@consts" ∈ loaded st -> is_Some (bindings st !! "SITE") ->
  trace st = [] -> "../fontAwesomeResize" ∉ loaded st ->
  trace (run FAI rs st)
  = match header_renders rs with
    | 0 => []
    | S n => EvAutoAddCss false
             :: replicate (S n) (EvIconRender faMagnifyingGlass false)
    end.
Proof.
  revert st. induction rs as [|[|] rs IH]; intros st Hc [site Hs] Ht Hl.
  - done.
  - cbn [run fold_left header_renders]. fold (run FAI rs (serve FAI st ReqHeader)).
    rewrite (serve_Header_configured st site) by done.
    rewrite trace_of_run_loaded.
    + cbn [emit next_scope trace]. rewrite after_imports_trace, after_imports_flag.
      rewrite !decide_False by done. rewrite Ht. reflexivity.
    + cbn [emit next_scope loaded]. by apply after_imports_loaded.
    + cbn [emit next_scope bindings]. rewrite after_imports_bindings. by eexists.
    + cbn [emit next_scope loaded]. apply after_imports_adapter.
    + cbn [emit next_scope autoAddCss]. rewrite after_imports_flag.
      by rewrite decide_False.
  - cbn [run fold_left header_renders]. apply IH; by try eexists.
Qed.
End Renders.

Lemma second_render_only_renders_witness :
  exists site html,
    Header_template SITE (sample_icon false faMagnifyingGlass) 1
    = Header_template site html
        (transitions (emit (EvIconRender faMagnifyingGlass false)
                        (next_scope (after_imports site_only))))
    /\ render_Header sample_icon
         (emit (EvIconRender faMagnifyingGlass false)
            (next_scope (after_imports site_only)))
       = Ok (Header_template site html
               (S (transitions (emit (EvIconRender faMagnifyingGlass false)
                                  (next_scope (after_imports site_only))))),
             emit (EvIconRender faMagnifyingGlass
                     (autoAddCss (emit (EvIconRender faMagnifyingGlass false)
                                    (next_scope (after_imports site_only)))))
               (next_scope (emit (EvIconRender faMagnifyingGlass false)
                              (next_scope (after_imports site_only))))).
Proof.
  apply (second_render_only_renders sample_icon site_only).
  reflexivity.
Defined.

Lemma Header_without_TITLE_witness :
  exists out st',
    render_Header sample_icon (configured (<["SITE" := VObj []]> ∅)) = Ok (out, st')
    /\ texts out = ["CV"; "/"; "Blog"; "/"; "Search"]
    /\ links out = ["/"; "/files/Simeon-Tran-CV.pdf"; "/blog"]
    /\ existsb (button_labelled "Search") (subnodes out) = true.
Proof.
  apply (Header_without_TITLE sample_icon (configured (<["SITE" := VObj []]> ∅)) (VObj [])).
  - cbn. set_solver.
  - reflexivity.
  - reflexivity.
Defined.

Lemma trace_of_run_witness :
  trace (run sample_icon [ReqProfilePicture; ReqHeader; ReqHeader; ReqHeader] site_only)
  = [ EvAutoAddCss false;
      EvIconRender faMagnifyingGlass false;
      EvIconRender faMagnifyingGlass false;
      EvIconRender faMagnifyingGlass false ].
Proof.
  apply (trace_of_run sample_icon
           [ReqProfilePicture; ReqHeader; ReqHeader; ReqHeader] site_only).
  - cbn. set_solver.
  - by eexists.
  - reflexivity.
  - cbn. set_solver.
Defined.

(** * The authorisation middleware *)

(** ** Scopes *)

Lemma includes_elem x xs : includes x xs = true <-> x ∈ xs.
Proof.
  induction xs as [|y ys IH]; cbn [includes].
  - split; [done|]. intros H. by apply elem_of_nil in H.
  - rewrite elem_of_cons. destruct (decide (x = y)) as [->|Hne].
    + split; [by left|done].
    + rewrite IH. split; [by right|]. by intros [?|?].
Qed.

(** X7: [hasScopes] holds exactly when the user has one of the required
    scopes; in particular it fails for a user without scopes and for an
    empty list of required scopes. *)
Theorem hasScopes_iff (userScopes requiredScopes : list string) :
  hasScopes userScopes requiredScopes = true
  <-> exists scope, scope ∈ userScopes /\ scope ∈ requiredScopes.
Proof.
  induction userScopes as [|s rest IH]; cbn [hasScopes].
  - split; [done|]. intros (s & Hs & _). by apply elem_of_nil in Hs.
  - destruct (includes s requiredScopes) eqn:Hinc.
    + split; [|done]. intros _. exists s. split; [by left|].
      by apply includes_elem.
    + rewrite IH. split.
      * intros (s' & Hu & Hr). exists s'. split; [by right|done].
      * intros (s' & Hu & Hr). apply elem_of_cons in Hu as [-> | Hu].
        -- apply includes_elem in Hr. congruence.
        -- eauto.
Qed.

(** X8: The order of the two lists does not matter to [hasScopes]. *)
Theorem hasScopes_sym (xs ys : list string) :
  hasScopes xs ys = hasScopes ys xs.
Proof.
  destruct (hasScopes xs ys) eqn:H1, (hasScopes ys xs) eqn:H2; try done.
  - apply hasScopes_iff in H1 as (s & ? & ?).
    assert (hasScopes ys xs = true) by (apply hasScopes_iff; eauto). congruence.
  - apply hasScopes_iff in H2 as (s & ? & ?).
    assert (hasScopes xs ys = true) by (apply hasScopes_iff; eauto). congruence.
Qed.

(** ** Splitting the header *)

Lemma js_split_not_nil sep s : js_split sep s <> [].
Proof.
  destruct s as [|c s]; cbn [js_split]; [done|].
  destruct (decide (c = sep)); [done|]. by destruct (js_split sep s).
Qed.

Lemma js_split_no_sep sep w : occurs sep w = false -> js_split sep w = [w].
Proof.
  induction w as [|c w IH]; cbn [occurs js_split]; [done|].
  destruct (decide (c = sep)); [done|]. intros H. by rewrite IH.
Qed.

Lemma js_split_app sep w r :
  occurs sep w = false ->
  js_split sep (w +:+ String sep r) = w :: js_split sep r.
Proof.
  induction w as [|c w IH]; simpl; intros H.
  - by rewrite decide_True.
  - destruct (decide (c = sep)); [done|]. by rewrite IH.
Qed.

(** The first segment reaches up to the first separator. *)
Lemma js_split_inv sep s : forall w rest,
  js_split sep s = w :: rest ->
  occurs sep w = false
  /\ ((rest = [] /\ s = w)
      \/ exists r, s = w +:+ String sep r /\ js_split sep r = rest).
Proof.
  induction s as [|c s IH]; cbn [js_split]; intros w rest Heq.
  - injection Heq as <- <-. split; [done|]. by left.
  - destruct (decide (c = sep)) as [->|Hne].
    + injection Heq as <- <-. split; [done|]. right. by exists s.
    + destruct (js_split sep s) as [|seg segs] eqn:Hs.
      { by apply js_split_not_nil in Hs. }
      injection Heq as <- <-.
      destruct (IH seg segs eq_refl) as (Hocc & [[-> ->] | (r & -> & Hr)]).
      * split; [cbn [occurs]; by rewrite decide_False|]. by left.
      * split; [cbn [occurs]; by rewrite decide_False|]. right. by exists r.
Qed.

Section AuthorizationProperties.
Variables algorithm issuer audience : string.
Variable jwtVerify : option string -> option (Value * string).
Variable getScopes : string -> option (list string).

Abbreviation verify_token := (verify algorithm issuer audience jwtVerify getScopes).
Abbreviation authorize_request := (authorize algorithm issuer audience jwtVerify getScopes).

(** A token accepted for some required scopes is accepted for every
    larger list of required scopes. *)
Lemma verify_mono tok scopes scopes' :
  (forall s, s ∈ scopes -> s ∈ scopes') ->
  verify_token tok scopes = true -> verify_token tok scopes' = true.
Proof.
  intros Hsub. unfold verify.
  destruct (jwtVerify tok) as [[payload alg]|]; [|done].
  destruct (decide _); [|done].
  destruct (str_prop "id" payload) as [id|]; [|done].
  do 2 (destruct (decide _); [|done]).
  destruct (getScopes id) as [us|]; [|done].
  rewrite !hasScopes_iff. intros (s & ? & ?). eauto.
Qed.

(** X9: Whoever may run the [admin] query may run the [auth] query: a token
    that is accepted with the scopes required for [admin] is accepted with
    those required for [auth]. *)
Theorem admin_token_passes_auth tok adminScopes authScopes :
  required_scopes admin = Some adminScopes ->
  required_scopes auth = Some authScopes ->
  verify_token tok adminScopes = true -> verify_token tok authScopes = true.
Proof.
  intros [= <-] [= <-]. apply verify_mono.
  intros s Hs. apply elem_of_cons in Hs as [-> | Hs]; [by right; left|].
  by apply elem_of_nil in Hs.
Qed.

(** X10: When [authorize] lets a request through, the header is the word
    [Bearer], alone or followed by a space; the token handed to the
    verification is the text up to the next space (none if the header is
    [Bearer] alone), it was accepted for the required scopes, and the
    value is the one of the wrapped resolver.  Every other request ends
    with the error [Unauthorized], an error of the resolver included. *)
Theorem authorize_outcome {A} (next : option A) scopes bearerAuth :
  (forall result,
     authorize_request next scopes bearerAuth = Resolved result ->
     next = Some result
     /\ ((bearerAuth = Some "Bearer" /\ verify_token None scopes = true)
         \/ exists tok rest,
              (bearerAuth = Some ("Bearer " +:+ tok)
               \/ bearerAuth = Some ("Bearer " +:+ tok +:+ " " +:+ rest))
              /\ occurs " " tok = false
              /\ verify_token (Some tok) scopes = true))
  /\ (forall message,
        authorize_request next scopes bearerAuth = Rejected message ->
        message = "Unauthorized").
Proof.
  unfold authorize. split.
  - intros result.
    destruct bearerAuth as [h|]; cbn [fmap option_fmap option_map mbind option_bind];
      [|done].
    destruct (decide _) as [Hscheme|]; [|done].
    destruct (verify _ _ _ _ _ _ scopes) eqn:Hv; [|done].
    destruct next as [v|]; [|done]. intros [= <-]. split; [done|].
    destruct (js_split " " h) as [|w rest] eqn:Hsplit; [done|].
    injection Hscheme as ->.
    apply js_split_inv in Hsplit as (_ & [[-> ->] | (r & -> & Hr)]).
    + left. done.
    + right. cbn [lookup list_lookup] in Hv.
      destruct rest as [|tok rest']; [by apply js_split_not_nil in Hr|].
      cbn in Hv.
      apply js_split_inv in Hr as (Hocc & [[-> ->] | (r' & -> & Hr')]).
      * exists tok, EmptyString. split; [by left|done].
      * exists tok, r'. split; [by right|done].
  - intros message.
    repeat match goal with
           | |- context [decide ?P] => destruct (decide P)
           | |- context [if ?b then _ else _] => destruct b
           | |- context [match ?o with Some _ => _ | None => _ end] => destruct o
           end; by intros [= <-].
Qed.

(** X11: What follows the token in the header is ignored: a second space and
    anything after it change nothing. *)
Theorem authorize_ignores_trailing {A} (next : option A) scopes tok extra :
  occurs " " tok = false ->
  authorize_request next scopes (Some ("Bearer " +:+ tok +:+ " " +:+ extra))
  = authorize_request next scopes (Some ("Bearer " +:+ tok)).
Proof.
  intros Hocc. unfold authorize.
  cbn [fmap option_fmap option_map mbind option_bind].
  change ("Bearer " +:+ tok +:+ " " +:+ extra)
    with ("Bearer" +:+ String " " (tok +:+ String " " extra)).
  change ("Bearer " +:+ tok) with ("Bearer" +:+ String " " tok).
  rewrite !(js_split_app " " "Bearer") by reflexivity.
  rewrite (js_split_app " " tok), (js_split_no_sep " " tok) by done.
  reflexivity.
Qed.

(** X12: A verified token with the scheme in place: the outcome is the one of
    the wrapped resolver, its errors turned into [Unauthorized]. *)
Theorem authorize_bearer {A} (next : option A) scopes tok :
  occurs " " tok = false ->
  verify_token (Some tok) scopes = true ->
  authorize_request next scopes (Some ("Bearer " +:+ tok))
  = match next with
    | Some result => Resolved result
    | None => Rejected "Unauthorized"
    end.
Proof.
  intros Hocc Hv. unfold authorize.
  cbn [fmap option_fmap option_map mbind option_bind].
  change ("Bearer " +:+ tok) with ("Bearer" +:+ String " " tok).
  rewrite (js_split_app " " "Bearer") by reflexivity.
  rewrite js_split_no_sep by done. cbn [lookup list_lookup].
  rewrite decide_True by done. cbn. by rewrite Hv.
Qed.
End AuthorizationProperties.

Lemma admin_token_passes_auth_witness :
  verify "RS256" "issuer" "audience" sample_jwtVerify sample_getScopes
    (Some "admin.token") ["user"; "admin"] = true.
Proof.
  apply (admin_token_passes_auth "RS256" "issuer" "audience"
           sample_jwtVerify sample_getScopes (Some "admin.token") ["admin"]).
  - reflexivity.
  - reflexivity.
  - reflexivity.
Defined.

Lemma authorize_outcome_witness :
  Some "You have admin permissions!" = Some "You have admin permissions!"
  /\ ((Some "Bearer admin.token trailing" = Some "Bearer"
       /\ verify "RS256" "issuer" "audience" sample_jwtVerify sample_getScopes
            None ["admin"] = true)
      \/ exists tok rest,
           (Some "Bearer admin.token trailing" = Some ("Bearer " +:+ tok)
            \/ Some "Bearer admin.token trailing"
               = Some ("Bearer " +:+ tok +:+ " " +:+ rest))
           /\ occurs " " tok = false
           /\ verify "RS256" "issuer" "audience" sample_jwtVerify sample_getScopes
                (Some tok) ["admin"] = true).
Proof.
  apply (proj1 (authorize_outcome "RS256" "issuer" "audience"
                  sample_jwtVerify sample_getScopes
                  (Some "You have admin permissions!") ["admin"]
                  (Some "Bearer admin.token trailing"))).
  reflexivity.
Defined.

Lemma authorize_ignores_trailing_witness :
  authorize "RS256" "issuer" "audience" sample_jwtVerify sample_getScopes
    (Some "You are authorized!") ["user"; "admin"]
    (Some ("Bearer " +:+ "user.token" +:+ " " +:+ "and more"))
  = authorize "RS256" "issuer" "audience" sample_jwtVerify sample_getScopes
      (Some "You are authorized!") ["user"; "admin"]
      (Some ("Bearer " +:+ "user.token")).
Proof.
  apply (authorize_ignores_trailing "RS256" "issuer" "audience"
           sample_jwtVerify sample_getScopes).
  reflexivity.
Defined.

Lemma authorize_bearer_witness :
  authorize "RS256" "issuer" "audience" sample_jwtVerify sample_getScopes
    (@None string) ["user"; "admin"] (Some ("Bearer " +:+ "user.token"))
  = Rejected "Unauthorized".
Proof.
  apply (authorize_bearer "RS256" "issuer" "audience"
           sample_jwtVerify sample_getScopes (@None string)).
  - reflexivity.
  - reflexivity.
Defined.

(** The user of the post, whose scopes are [user] alone, may run [auth]
    but not [admin]; without a header nobody may. *)
Example user_token_on_the_two_queries :
  authorize "RS256" "issuer" "audience" sample_jwtVerify sample_getScopes
    (Some "You are authorized!") ["user"; "admin"] (Some "Bearer user.token")
  = Resolved "You are authorized!"
  /\ authorize "RS256" "issuer" "audience" sample_jwtVerify sample_getScopes
       (Some "You have admin permissions!") ["admin"] (Some "Bearer user.token")
     = Rejected "Unauthorized"
  /\ authorize "RS256" "issuer" "audience" sample_jwtVerify sample_getScopes
       (Some "You are authorized!") ["user"; "admin"] None
     = Rejected "Unauthorized"
  /\ authorize "RS256" "issuer" "audience" sample_jwtVerify sample_getScopes
       (Some "You are authorized!") ["user"; "admin"] (Some "bearer user.token")
     = Rejected "Unauthorized".
Proof. repeat split; reflexivity. Qed.
